(** * RFC 2822 e-mail validation: [addons/crm/wizard/validate_email.py]

    A shallow embedding of [validate_email] and of the pattern it is built on.

    - Python strings are lists of code points ([pystr]).
    - The pattern fragments ([WSP], [CRLF], ..., [VALID_ADDRESS_REGEXP]) are the
      source's raw strings, concatenated as the source concatenates them; the
      module [Re] gives the part of Python's [re] they use: a compiler from
      pattern text to a syntax tree, and a matcher deciding whether
      [re.match] finds a match.
    - [DNS] and [smtplib] are the outside world: every call is answered by an
      oracle, threaded through an explicit world state, and logged in a trace
      of events.  A call either returns a value or raises an exception. *)

From Stdlib Require Import List String Ascii Bool Arith NArith ZArith Lia.
Import ListNotations.

Local Open Scope string_scope.
Local Open Scope list_scope.

(* ================================================================== *)
(** ** Python strings *)

(** A [str] is a sequence of Unicode code points. *)
Definition pystr := list N.

(** The [str] with the characters of an ASCII literal. *)
Definition py (s : string) : pystr := map N_of_ascii (list_ascii_of_string s).

Definition AT : N := 64.          (* '@' *)
Definition LF : N := 10.          (* '\n' *)
Definition BACKSLASH : N := 92.

(** [s.find(c)] for a one-character needle: lowest index, or -1. *)
Fixpoint find (c : N) (s : pystr) : Z :=
  match s with
  | [] => (-1)%Z
  | x :: s' =>
      if N.eqb x c then 0%Z
      else match find c s' with
           | Zneg _ => (-1)%Z
           | i => (i + 1)%Z
           end
  end.

(** [s[i:]] for [i >= 0] (the only case the source produces: [find + 1]). *)
Definition slice_from (i : Z) (s : pystr) : pystr := skipn (Z.to_nat i) s.

(* ================================================================== *)
(** ** The fragment of Python's [re] the module uses *)

Module Re.

(** One member of a bracketed character set. *)
Inductive class_item :=
| CChar (c : N)
| CRange (lo hi : N)
| CWord.                                  (* \w *)

Inductive regex :=
| Empty                                   (* the empty pattern *)
| Lit (c : N)                             (* a literal character *)
| Dot                                     (* .  : anything but a newline *)
| Class (items : list class_item)         (* [...] *)
| Cat (r1 r2 : regex)
| Alt (r1 r2 : regex)                     (* r1|r2 *)
| Star (r : regex)                        (* r* *)
| Plus (r : regex)                        (* r+ *)
| Opt (r : regex)                         (* r? *)
| Bol                                     (* ^ *)
| Eol.                                    (* $ *)

(* ---------------------------------------------------------------- *)
(** *** Compiling pattern text *)

Definition hex_digit (a : ascii) : option N :=
  let n := N_of_ascii a in
  if (48 <=? n)%N && (n <=? 57)%N then Some (n - 48)%N
  else if (97 <=? n)%N && (n <=? 102)%N then Some (n - 87)%N
  else if (65 <=? n)%N && (n <=? 70)%N then Some (n - 55)%N
  else None.

Definition is_ascii_alnum (n : N) : bool :=
  ((48 <=? n) && (n <=? 57) || (65 <=? n) && (n <=? 90) || (97 <=? n) && (n <=? 122))%N.

(** What follows a backslash, inside or outside a set: a character, or [\w].
    Escapes the module does not use ([\d], [\s], [\b], ...) are not compiled. *)
Definition parse_escape (s : list ascii) : option (class_item * list ascii) :=
  match s with
  | "w"%char :: s' => Some (CWord, s')
  | "t"%char :: s' => Some (CChar 9, s')
  | "n"%char :: s' => Some (CChar 10, s')
  | "r"%char :: s' => Some (CChar 13, s')
  | "x"%char :: h :: l :: s' =>
      match hex_digit h, hex_digit l with
      | Some a, Some b => Some (CChar (16 * a + b), s')
      | _, _ => None
      end
  | c :: s' =>
      if is_ascii_alnum (N_of_ascii c) then None
      else Some (CChar (N_of_ascii c), s')
  | [] => None
  end.

(** One member of a set, before a possible [-hi]. *)
Definition parse_class_atom (s : list ascii) : option (class_item * list ascii) :=
  match s with
  | "\"%char :: s' => parse_escape s'
  | c :: s' => Some (CChar (N_of_ascii c), s')
  | [] => None
  end.

(** The members of a set up to its closing bracket. *)
Fixpoint parse_class (fuel : nat) (s : list ascii)
  : option (list class_item * list ascii) :=
  match fuel with
  | O => None
  | S f =>
      match s with
      | "]"%char :: s' => Some ([], s')
      | _ =>
          match parse_class_atom s with
          | Some (CChar lo, "-"%char :: s1) =>
              match s1 with
              | "]"%char :: s2 => Some ([CChar lo; CChar 45], s2)
              | _ =>
                  match parse_class_atom s1 with
                  | Some (CChar hi, s2) =>
                      match parse_class f s2 with
                      | Some (items, s3) => Some (CRange lo hi :: items, s3)
                      | None => None
                      end
                  | _ => None
                  end
              end
          | Some (it, s1) =>
              match parse_class f s1 with
              | Some (items, s2) => Some (it :: items, s2)
              | None => None
              end
          | None => None
          end
      end
  end.

(** A postfix repetition operator, if one follows. *)
Definition parse_quant (r : regex) (s : list ascii) : regex * list ascii :=
  match s with
  | "*"%char :: s' => (Star r, s')
  | "+"%char :: s' => (Plus r, s')
  | "?"%char :: s' => (Opt r, s')
  | _ => (r, s)
  end.

Definition cat (r1 r2 : regex) : regex :=
  match r2 with
  | Empty => r1
  | _ => Cat r1 r2
  end.

(** Recursive descent: alternatives, then sequences, then single items. *)
Fixpoint parse_alt (fuel : nat) (s : list ascii) : option (regex * list ascii) :=
  match fuel with
  | O => None
  | S f =>
      match parse_seq f s with
      | Some (r1, "|"%char :: s1) =>
          match parse_alt f s1 with
          | Some (r2, s2) => Some (Alt r1 r2, s2)
          | None => None
          end
      | other => other
      end
  end
with parse_seq (fuel : nat) (s : list ascii) : option (regex * list ascii) :=
  match fuel with
  | O => None
  | S f =>
      match s with
      | [] => Some (Empty, s)
      | "|"%char :: _ => Some (Empty, s)
      | ")"%char :: _ => Some (Empty, s)
      | _ =>
          match parse_atom f s with
          | Some (a, s1) =>
              let (q, s2) := parse_quant a s1 in
              match parse_seq f s2 with
              | Some (r, s3) => Some (cat q r, s3)
              | None => None
              end
          | None => None
          end
      end
  end
with parse_atom (fuel : nat) (s : list ascii) : option (regex * list ascii) :=
  match fuel with
  | O => None
  | S f =>
      match s with
      | "("%char :: "?"%char :: ":"%char :: s1 =>
          match parse_alt f s1 with
          | Some (r, ")"%char :: s2) => Some (r, s2)
          | _ => None
          end
      | "["%char :: "^"%char :: _ => None
      | "["%char :: s1 =>
          match parse_class (S (List.length s1)) s1 with
          | Some (items, s2) => Some (Class items, s2)
          | None => None
          end
      | "\"%char :: s1 =>
          match parse_escape s1 with
          | Some (CChar c, s2) => Some (Lit c, s2)
          | Some (it, s2) => Some (Class [it], s2)
          | None => None
          end
      | "."%char :: s1 => Some (Dot, s1)
      | "^"%char :: s1 => Some (Bol, s1)
      | "$"%char :: s1 => Some (Eol, s1)
      | "("%char :: _ => None
      | "*"%char :: _ => None
      | "+"%char :: _ => None
      | "?"%char :: _ => None
      | "{"%char :: _ => None
      | c :: s1 => Some (Lit (N_of_ascii c), s1)
      | [] => None
      end
  end.

(** [re.compile(pattern)]: [None] stands for [re.error]. *)
Definition compile (pattern : string) : option regex :=
  let s := list_ascii_of_string pattern in
  match parse_alt (3 * S (List.length s)) s with
  | Some (r, []) => Some r
  | _ => None
  end.

(* ---------------------------------------------------------------- *)
(** *** Matching *)

Section Matching.

(** [\w] on a [str] pattern is [ch.isalnum() or ch == '_'].  Outside ASCII
    that is a property of the Unicode database, taken as a parameter. *)
Variable unicode_isalnum : N -> bool.

Definition is_word (c : N) : bool :=
  if (c <? 128)%N then is_ascii_alnum c || (c =? 95)%N
  else unicode_isalnum c.

Definition in_item (c : N) (it : class_item) : bool :=
  match it with
  | CChar x => (c =? x)%N
  | CRange lo hi => ((lo <=? c) && (c <=? hi))%N
  | CWord => is_word c
  end.

Definition in_class (c : N) (items : list class_item) : bool :=
  existsb (in_item c) items.

(** Repetition of [step], zero or more times, then [k].  An iteration that
    consumes nothing is not repeated; [fuel] bounds the number of consuming
    iterations and is started above the length of the subject. *)
Fixpoint iterate (step : pystr -> (pystr -> bool) -> bool)
         (fuel : nat) (s : pystr) (k : pystr -> bool) : bool :=
  if k s then true
  else
    match fuel with
    | O => false
    | S f =>
        step s (fun s' =>
                  if (List.length s' <? List.length s)%nat
                  then iterate step f s' k else false)
    end.

(** [accepts total r s k]: from the subject's suffix [s] (the subject has
    [total] characters), [r] matches some prefix of [s] whose remainder
    satisfies [k].  All ways of matching are tried, as the backtracking
    engine does. *)
Fixpoint accepts (total : nat) (r : regex) (s : pystr) (k : pystr -> bool)
  {struct r} : bool :=
  match r with
  | Empty => k s
  | Lit c =>
      match s with
      | x :: s' => if (x =? c)%N then k s' else false
      | [] => false
      end
  | Dot =>
      match s with
      | x :: s' => if (x =? LF)%N then false else k s'
      | [] => false
      end
  | Class items =>
      match s with
      | x :: s' => if in_class x items then k s' else false
      | [] => false
      end
  | Cat r1 r2 => accepts total r1 s (fun s' => accepts total r2 s' k)
  | Alt r1 r2 => if accepts total r1 s k then true else accepts total r2 s k
  | Star r1 => iterate (accepts total r1) (S (List.length s)) s k
  | Plus r1 =>
      accepts total r1 s
        (fun s' => iterate (accepts total r1) (S (List.length s')) s' k)
  | Opt r1 => if accepts total r1 s k then true else k s
  | Bol => if (List.length s =? total)%nat then k s else false
  | Eol =>
      match s with
      | [] => k s
      | [x] => if (x =? LF)%N then k s else false
      | _ => false
      end
  end.

(** [re.match(r, s) is not None]: a match starting at the beginning of [s]. *)
Definition matches (r : regex) (s : pystr) : bool :=
  accepts (List.length s) r s (fun _ => true).

(** [re.fullmatch(r, s) is not None]: a match of the whole of [s]. *)
Definition fullmatches (r : regex) (s : pystr) : bool :=
  accepts (List.length s) r s (fun rest => match rest with [] => true | _ => false end).

End Matching.

End Re.

(* ================================================================== *)
(** ** The pattern fragments, as the source spells them *)

Local Open Scope string_scope.

Definition DQ : string := String (ascii_of_nat 34) EmptyString.   (* the double quote *)

Definition WSP := "[ \t]".
Definition CRLF := "(?:\r\n)".
Definition NO_WS_CTL := "\x01-\x08\x0b\x0c\x0f-\x1f\x7f".
Definition QUOTED_PAIR := "(?:\\.)".
Definition FWS := (("(?:(?:" ++ WSP ++ "*" ++ CRLF ++ ")?" ++ WSP) ++ "+)").
Definition CTEXT := ("[" ++ NO_WS_CTL ++ "\x21-\x27\x2a-\x5b\x5d-\x7e]").
Definition CCONTENT := (("(?:" ++ CTEXT ++ "|" ++ QUOTED_PAIR) ++ ")").
Definition COMMENT :=
  "\((?:" ++ FWS ++ "?" ++ CCONTENT ++ ")*" ++ FWS ++ "?\)".
Definition CFWS :=
  (((((("(?:" ++ FWS ++ "?" ++ COMMENT ++ ")*(?:" ++ FWS) ++ "?") ++ COMMENT) ++ "|") ++ FWS)
  ) ++ ")".

Definition ATEXT := "[\w!#$%&\'\*\+\-/=\?\^`\{\|\}~]".
Definition ATOM := CFWS ++ "?" ++ ATEXT ++ "+" ++ CFWS ++ "?".
Definition DOT_ATOM_TEXT := ATEXT ++ "+(?:\." ++ ATEXT ++ "+)*".
Definition DOT_ATOM := CFWS ++ "?" ++ DOT_ATOM_TEXT ++ CFWS ++ "?".
Definition QTEXT := ("[" ++ NO_WS_CTL ++ "\x21\x23-\x5b\x5d-\x7e]").
Definition QCONTENT := (("(?:" ++ QTEXT ++ "|" ++ QUOTED_PAIR) ++ ")").
Definition QUOTED_STRING :=
  (
    (
      (
        (((((CFWS ++ "?" ++ DQ ++ "(?:" ++ FWS ++ "?") ++ QCONTENT) ++ ")*") ++ FWS)
        ++ "?"
      )
      ++ DQ
    )
    ++ CFWS
  ) ++ "?").

Definition LOCAL_PART := (("(?:" ++ DOT_ATOM ++ "|" ++ QUOTED_STRING) ++ ")").
Definition DTEXT := "[" ++ NO_WS_CTL ++ "\x21-\x5a\x5e-\x7e]".
Definition DCONTENT := (("(?:" ++ DTEXT ++ "|" ++ QUOTED_PAIR) ++ ")").
Definition DOMAIN_LITERAL :=
  (
    (
      (
        (
          (((((CFWS ++ "?" ++ "\[" ++ "(?:") ++ FWS) ++ "?") ++ DCONTENT)
          ++ ")*"
        )
        ++ FWS
      )
      ++ "?\]"
    )
    ++ CFWS
  ) ++ "?").

Definition DOMAIN := (("(?:" ++ DOT_ATOM ++ "|" ++ DOMAIN_LITERAL) ++ ")").
Definition ADDR_SPEC := LOCAL_PART ++ "@" ++ DOMAIN.

(** A valid address will match exactly the 3.4.1 addr-spec. *)
Definition VALID_ADDRESS_REGEXP := "^" ++ ADDR_SPEC ++ "$".

Local Open Scope list_scope.

(* ================================================================== *)
(** ** Exceptions, calls to the outside world, traces *)

(** The exception classes the handlers of the module name, and classes they
    do not name.  An exception is an instance of one of them, and a handler
    catches the class it names: none of these classes derives from another.

    [socket_error] is what the socket layer raises when a TCP connection
    cannot be opened (refused, timed out, host unreachable):
    [smtplib.SMTP.connect] opens its socket with [socket.create_connection]
    and lets that exception through.  [SMTPConnectError] is smtplib's own
    class, for a server that answers the connection with a refusal. *)
Inductive exn :=
| AssertionError
| ServerError                  (* [DNS.ServerError], or the fallback class when [import DNS] failed *)
| SMTPServerDisconnected       (* smtplib *)
| SMTPConnectError             (* smtplib *)
| Exception_ (msg : string)    (* a plain [Exception] *)
| socket_error                 (* [socket.error], an [OSError] of the socket layer *)
| OtherError (name : string).  (* any other class *)

Inductive outcome (A : Type) :=
| Returns (a : A)
| Raises (e : exn).
Arguments Returns {A} a.
Arguments Raises {A} e.

(** An MX record as [DNS.mxlookup] lists it: [(priority, hostname)]. *)
Definition mx_record := (Z * pystr)%type.

(** A call that left the process, with the answer it got. *)
Inductive event :=
| EDiscover (r : outcome unit)
| EMxLookup (name : pystr) (r : outcome (list mx_record))
| EConnect (host : pystr) (r : outcome unit)
| EHelo (host : pystr) (r : outcome Z)
| EMail (host : pystr) (sender : pystr) (r : outcome unit)
| ERcpt (host : pystr) (recipient : pystr) (r : outcome Z).

Definition trace := list event.

(** The hosts a TCP connection was attempted to, in order. *)
Fixpoint contacted (tr : trace) : list pystr :=
  match tr with
  | [] => []
  | EConnect host _ :: tr' => host :: contacted tr'
  | _ :: tr' => contacted tr'
  end.

(** Calls of the SMTP conversation. *)
Definition is_smtp (e : event) : bool :=
  match e with
  | EConnect _ _ | EHelo _ _ | EMail _ _ _ | ERcpt _ _ _ => true
  | _ => false
  end.

(** An SMTP call that ended in [SMTPServerDisconnected]. *)
Definition disconnected (e : event) : bool :=
  match e with
  | EConnect _ (Raises SMTPServerDisconnected)
  | EHelo _ (Raises SMTPServerDisconnected)
  | EMail _ _ (Raises SMTPServerDisconnected)
  | ERcpt _ _ (Raises SMTPServerDisconnected) => true
  | _ => false
  end.

(** The outside world, as seen through the two libraries.  [W] is the state
    of the world; each call moves it and is answered.  The results the source
    discards (the [(code, msg)] of [connect] and [mail], the message of
    [helo] and [rcpt]) are left out. *)
Record DNS_module (W : Type) := {
  DiscoverNameServers : W -> W * outcome unit;
  mxlookup : pystr -> W -> W * outcome (list mx_record)
}.
Arguments DiscoverNameServers {W}.
Arguments mxlookup {W}.

Record SMTP_library (W : Type) := {
  connect : pystr -> W -> W * outcome unit;
  helo : pystr -> W -> W * outcome Z;
  mail : pystr -> pystr -> W -> W * outcome unit;
  rcpt : pystr -> pystr -> W -> W * outcome Z
}.
Arguments connect {W}.
Arguments helo {W}.
Arguments mail {W}.
Arguments rcpt {W}.

(* ================================================================== *)
(** ** A monad for state, trace and exceptions *)

Section Monad.

Variable W : Type.

(** A computation: from a world, the new world, the calls made and the
    outcome. *)
Definition M (A : Type) := W -> W * trace * outcome A.

Definition ret {A} (a : A) : M A := fun w => (w, [], Returns a).

Definition raise {A} (e : exn) : M A := fun w => (w, [], Raises e).

Definition bind {A B} (m : M A) (f : A -> M B) : M B :=
  fun w =>
    match m w with
    | (w1, t1, Returns a) =>
        match f a w1 with
        | (w2, t2, r) => (w2, t1 ++ t2, r)
        end
    | (w1, t1, Raises e) => (w1, t1, Raises e)
    end.

(** [try: m  except ...: handler] *)
Definition try_except {A} (m : M A) (handler : exn -> M A) : M A :=
  fun w =>
    match m w with
    | (w1, t1, Returns a) => (w1, t1, Returns a)
    | (w1, t1, Raises e) =>
        match handler e w1 with
        | (w2, t2, r) => (w2, t1 ++ t2, r)
        end
    end.

(** A call to the world, logged with its answer. *)
Definition call {A} (log : outcome A -> event) (f : W -> W * outcome A) : M A :=
  fun w => let (w1, r) := f w in (w1, [log r], r).

End Monad.

Arguments ret {W A} a.
Arguments raise {W A} e.
Arguments bind {W A B} m f.
Arguments try_except {W A} m handler.
Arguments call {W A} log f.

Declare Scope monad_scope.
Delimit Scope monad_scope with monad.
Notation "x <- m ;; k" := (bind m (fun x => k))
  (at level 61, m at next level, right associativity) : monad_scope.
Notation "m ;;; k" := (bind m (fun _ => k))
  (at level 61, right associativity) : monad_scope.
Local Open Scope monad_scope.

(* ================================================================== *)
(** ** [validate_email] *)

(** How one turn of the [for] loop ends. *)
Inductive flow :=
| Next                 (* [continue], or the end of the body *)
| Break                (* [break] *)
| Return (b : bool).   (* [return b] *)

Definition CONFIG_MESSAGE : string :=
  "For check the mx records or check if the email exists you must have installed pyDNS python package".

Section Validate.

Variable W : Type.
Variable unicode_isalnum : N -> bool.

(** The module-level name [DNS]: the imported module, or [None]. *)
Variable DNS : option (DNS_module W).
Variable smtplib : SMTP_library W.

(** [re.match(pattern, s) is not None] *)
Definition re_match (pattern : string) (s : pystr) : M W bool :=
  match Re.compile pattern with
  | Some r => ret (Re.matches unicode_isalnum r s)
  | None => raise (OtherError "re.error")
  end.

(** [assert b] *)
Definition assert_ (b : bool) : M W unit :=
  if b then ret tt else raise AssertionError.

(** The body of the loop, for one MX record. *)
Definition probe (email : pystr) (verify : bool) (mx : mx_record) : M W flow :=
  try_except
    (call (EConnect (snd mx)) (connect smtplib (snd mx)) ;;;
     if negb verify then ret (Return true) else
     status <- call (EHelo (snd mx)) (helo smtplib (snd mx)) ;;
     if negb (status =? 250)%Z then ret Next else
     call (EMail (snd mx) []) (mail smtplib (snd mx) []) ;;;
     status <- call (ERcpt (snd mx) email) (rcpt smtplib (snd mx) email) ;;
     if negb (status =? 250)%Z then ret (Return false) else
     ret Break)
    (fun e =>
       match e with
       | SMTPServerDisconnected => ret Break     (* Server not permits verify user *)
       | SMTPConnectError => ret Next
       | _ => raise e
       end).

(** [for mx in mx_hosts: ...]; [Some b] when the body returned [b], [None]
    when the loop was left by exhaustion or [break]. *)
Fixpoint for_mx (email : pystr) (verify : bool) (mx_hosts : list mx_record)
  : M W (option bool) :=
  match mx_hosts with
  | [] => ret None
  | mx :: rest =>
      f <- probe email verify mx ;;
      match f with
      | Next => for_mx email verify rest
      | Break => ret None
      | Return b => ret (Some b)
      end
  end.

(** [email[email.find('@')+1:]] *)
Definition hostname_of (email : pystr) : pystr :=
  slice_from (find AT email + 1) email.

Definition validate_email (email : pystr) (check_mx verify : bool) : M W bool :=
  try_except
    (matched <- re_match VALID_ADDRESS_REGEXP email ;;
     assert_ matched ;;;
     let check_mx := check_mx || verify in
     returned <-
       (if check_mx then
          match DNS with
          | None => raise (Exception_ CONFIG_MESSAGE)
          | Some dns =>
              call EDiscover (DiscoverNameServers dns) ;;;
              let hostname := hostname_of email in
              mx_hosts <- call (EMxLookup hostname) (mxlookup dns hostname) ;;
              for_mx email verify mx_hosts
          end
        else ret None) ;;
     match returned with
     | Some b => ret b
     | None => ret true
     end)
    (fun e =>
       match e with
       | AssertionError | ServerError => ret false
       | _ => raise e
       end).

End Validate.

(* ================================================================== *)
(** ** Worlds without state, for concrete runs *)

Fixpoint pystr_eqb (a b : pystr) : bool :=
  match a, b with
  | [], [] => true
  | x :: a', y :: b' => (x =? y)%N && pystr_eqb a' b'
  | _, _ => false
  end.

(** What one mail exchanger answers to each call. *)
Record host_behaviour := {
  on_connect : outcome unit;
  on_helo : outcome Z;
  on_mail : outcome unit;
  on_rcpt : outcome Z
}.

Definition static_smtp (b : pystr -> host_behaviour) : SMTP_library unit :=
  {| connect := fun h w => (w, on_connect (b h));
     helo := fun h w => (w, on_helo (b h));
     mail := fun h _ w => (w, on_mail (b h));
     rcpt := fun h _ w => (w, on_rcpt (b h)) |}.

Definition static_dns (hosts : list mx_record) : DNS_module unit :=
  {| DiscoverNameServers := fun w => (w, Returns tt);
     mxlookup := fun _ w => (w, Returns hosts) |}.

Definition accepting : host_behaviour :=
  {| on_connect := Returns tt; on_helo := Returns 250%Z;
     on_mail := Returns tt; on_rcpt := Returns 250%Z |}.

(** 550: mailbox unavailable. *)
Definition rejecting : host_behaviour :=
  {| on_connect := Returns tt; on_helo := Returns 250%Z;
     on_mail := Returns tt; on_rcpt := Returns 550%Z |}.

(** The server closes the connection when greeted. *)
Definition hanging_up : host_behaviour :=
  {| on_connect := Returns tt; on_helo := Raises SMTPServerDisconnected;
     on_mail := Returns tt; on_rcpt := Returns 250%Z |}.

(** Nothing listens on the SMTP port: the socket cannot be opened. *)
Definition refusing : host_behaviour :=
  {| on_connect := Raises socket_error; on_helo := Returns 250%Z;
     on_mail := Returns tt; on_rcpt := Returns 250%Z |}.

Definition mx1 : pystr := py "mx1.example.com".
Definition mx2 : pystr := py "mx2.example.com".

(** [first] answers as [b1], every other host as [b2]. *)
Definition first_then (first : pystr) (b1 b2 : host_behaviour) (h : pystr)
  : host_behaviour :=
  if pystr_eqb h first then b1 else b2.

(** No character outside ASCII counts as alphanumeric. *)
Definition ascii_only (c : N) : bool := false.

(* ================================================================== *)
(** ** The compiled pattern *)

Definition compiled (pattern : string) : Re.regex :=
  match Re.compile pattern with
  | Some r => r
  | None => Re.Empty
  end.

Definition local_part_re : Re.regex := Eval vm_compute in compiled LOCAL_PART.
Definition domain_re : Re.regex := Eval vm_compute in compiled DOMAIN.

(** The shape of [ADDR_SPEC], for a local part and a domain. *)
Definition bare_pattern (lp dom : Re.regex) : Re.regex :=
  Re.Cat lp (Re.Cat (Re.Lit AT) dom).

(** The shape of [VALID_ADDRESS_REGEXP]. *)
Definition anchored_pattern (lp dom : Re.regex) : Re.regex :=
  Re.Cat Re.Bol (Re.Cat lp (Re.Cat (Re.Lit AT) (Re.Cat dom Re.Eol))).

(** [ADDR_SPEC], compiled. *)
Definition addr_spec_re : Re.regex := bare_pattern local_part_re domain_re.

(** [VALID_ADDRESS_REGEXP], compiled. *)
Definition valid_address_re : Re.regex := anchored_pattern local_part_re domain_re.

(** The test of the first line of [validate_email]. *)
Definition syntactically_valid (unicode_isalnum : N -> bool) (s : pystr) : bool :=
  Re.matches unicode_isalnum valid_address_re s.

(** [s] is, from its first to its last character, an [ADDR_SPEC]. *)
Definition is_addr_spec (unicode_isalnum : N -> bool) (s : pystr) : bool :=
  Re.fullmatches unicode_isalnum addr_spec_re s.

(** [s'] is what is left of [s] after some prefix. *)
Definition suffix (s' s : pystr) : Prop := exists p, s = p ++ s'.

(* ================================================================== *)
(** ** Vocabulary of the statements *)

(** *** On the matcher *)

(** A successful match hands a suffix of the subject to its continuation. *)
Definition reaches (step : pystr -> (pystr -> bool) -> bool) : Prop :=
  forall s k, step s k = true -> exists s', suffix s' s /\ k s' = true.

(** The outcome of a match depends on the continuation only through its
    values on suffixes of the subject. *)
Definition local (step : pystr -> (pystr -> bool) -> bool) : Prop :=
  forall s k1 k2,
    (forall s', suffix s' s -> k1 s' = k2 s') -> step s k1 = step s k2.

(** What [$] lets through: the end of the subject, or a last line feed. *)
Definition at_end (rest : pystr) : bool :=
  match rest with
  | [] => true
  | [x] => (x =? LF)%N
  | _ => false
  end.

(** The strings a pattern without [^] and [$] denotes: the usual reading of
    a regular expression, on which the matcher is checked below. *)
Inductive denotes (unicode_isalnum : N -> bool) : Re.regex -> pystr -> Prop :=
| denotes_empty :
    denotes unicode_isalnum Re.Empty []
| denotes_lit c :
    denotes unicode_isalnum (Re.Lit c) [c]
| denotes_dot x :
    x <> LF -> denotes unicode_isalnum Re.Dot [x]
| denotes_class items x :
    Re.in_class unicode_isalnum x items = true ->
    denotes unicode_isalnum (Re.Class items) [x]
| denotes_cat r1 r2 p1 p2 :
    denotes unicode_isalnum r1 p1 -> denotes unicode_isalnum r2 p2 ->
    denotes unicode_isalnum (Re.Cat r1 r2) (p1 ++ p2)
| denotes_alt_left r1 r2 p :
    denotes unicode_isalnum r1 p -> denotes unicode_isalnum (Re.Alt r1 r2) p
| denotes_alt_right r1 r2 p :
    denotes unicode_isalnum r2 p -> denotes unicode_isalnum (Re.Alt r1 r2) p
| denotes_star_none r :
    denotes unicode_isalnum (Re.Star r) []
| denotes_star_more r p1 p2 :
    denotes unicode_isalnum r p1 -> denotes unicode_isalnum (Re.Star r) p2 ->
    denotes unicode_isalnum (Re.Star r) (p1 ++ p2)
| denotes_plus r p1 p2 :
    denotes unicode_isalnum r p1 -> denotes unicode_isalnum (Re.Star r) p2 ->
    denotes unicode_isalnum (Re.Plus r) (p1 ++ p2)
| denotes_opt_none r :
    denotes unicode_isalnum (Re.Opt r) []
| denotes_opt_some r p :
    denotes unicode_isalnum r p -> denotes unicode_isalnum (Re.Opt r) p.

(** Whatever a successful match consumed is denoted by the pattern. *)
Definition sound_for (unicode_isalnum : N -> bool) (r : Re.regex)
           (step : pystr -> (pystr -> bool) -> bool) : Prop :=
  forall s k, step s k = true ->
    exists p s', s = p ++ s' /\ denotes unicode_isalnum r p /\ k s' = true.

(** No [^] and no [$] in the pattern. *)
Fixpoint anchor_free (r : Re.regex) : bool :=
  match r with
  | Re.Bol | Re.Eol => false
  | Re.Cat r1 r2 | Re.Alt r1 r2 => anchor_free r1 && anchor_free r2
  | Re.Star r1 | Re.Plus r1 | Re.Opt r1 => anchor_free r1
  | _ => true
  end.

(** A lower bound on the length of what a pattern matches. *)
Fixpoint min_length (r : Re.regex) : nat :=
  match r with
  | Re.Lit _ | Re.Dot | Re.Class _ => 1
  | Re.Cat r1 r2 => min_length r1 + min_length r2
  | Re.Alt r1 r2 => Nat.min (min_length r1) (min_length r2)
  | Re.Plus r1 => min_length r1
  | _ => 0
  end.

(** Can the pattern match the empty string? *)
Fixpoint nullable (r : Re.regex) : bool :=
  match r with
  | Re.Empty | Re.Star _ | Re.Opt _ => true
  | Re.Cat r1 r2 => if nullable r1 then nullable r2 else false
  | Re.Alt r1 r2 => if nullable r1 then true else nullable r2
  | Re.Plus r1 => nullable r1
  | _ => false
  end.

(** Can a match of the pattern start with the character [c]? *)
Fixpoint can_start (unicode_isalnum : N -> bool) (c : N) (r : Re.regex) : bool :=
  match r with
  | Re.Lit x => (c =? x)%N
  | Re.Dot => negb (c =? LF)%N
  | Re.Class items => Re.in_class unicode_isalnum c items
  | Re.Cat r1 r2 =>
      if can_start unicode_isalnum c r1 then true
      else if nullable r1 then can_start unicode_isalnum c r2 else false
  | Re.Alt r1 r2 =>
      if can_start unicode_isalnum c r1 then true else can_start unicode_isalnum c r2
  | Re.Star r1 | Re.Plus r1 | Re.Opt r1 => can_start unicode_isalnum c r1
  | _ => false
  end.

(** Every character is an ASCII character. *)
Definition all_ascii (s : pystr) : Prop := forall c, In c s -> (c < 128)%N.

(** *** On traces *)

(** An event of kind [P], wherever it occurs in [tr], is the last one. *)
Definition stops_at (P : event -> bool) (tr : trace) : Prop :=
  forall t1 e t2, tr = t1 ++ e :: t2 -> P e = true -> t2 = [].

(** No event of [tr] is of kind [P]. *)
Definition free_of (P : event -> bool) (tr : trace) : Prop :=
  forall e, In e tr -> P e = false.

(** A recipient check that was answered with a code other than 250. *)
Definition rcpt_refused (e : event) : bool :=
  match e with
  | ERcpt _ _ (Returns status) => negb (status =? 250)%Z
  | _ => false
  end.

(** The exchanger an SMTP call was addressed to. *)
Definition smtp_host (e : event) : option pystr :=
  match e with
  | EConnect h _ | EHelo h _ | EMail h _ _ | ERcpt h _ _ => Some h
  | _ => None
  end.

(** *** On the control flow of [validate_email] *)

(** How the loop ends for the caller when a turn ends with [f]. *)
Definition leaves (f : flow) : option bool :=
  match f with
  | Return b => Some b
  | _ => None
  end.

(** What the outer handler makes of an exception. *)
Definition outer (e : exn) : outcome bool :=
  match e with
  | AssertionError | ServerError => Returns false
  | _ => Raises e
  end.

(** What [validate_email] answers when the loop is over. *)
Definition finish (r : outcome (option bool)) : outcome bool :=
  match r with
  | Returns (Some b) => Returns b
  | Returns None => Returns true
  | Raises e => outer e
  end.

(** What the two handlers of the loop make of an exception. *)
Definition inner (e : exn) : outcome flow :=
  match e with
  | SMTPServerDisconnected => Returns Break
  | SMTPConnectError => Returns Next
  | _ => Raises e
  end.

(** The conversations one turn of the loop can have with the exchanger [h],
    each with the way the turn ends. *)
Inductive turn (email : pystr) (verify : bool) (h : pystr)
  : trace -> outcome flow -> Prop :=
| turn_connect_raises e :
    turn email verify h [EConnect h (Raises e)] (inner e)
| turn_connected :
    verify = false ->
    turn email verify h [EConnect h (Returns tt)] (Returns (Return true))
| turn_helo_raises e :
    verify = true ->
    turn email verify h
      [EConnect h (Returns tt); EHelo h (Raises e)] (inner e)
| turn_helo_refused status :
    verify = true -> status <> 250%Z ->
    turn email verify h
      [EConnect h (Returns tt); EHelo h (Returns status)] (Returns Next)
| turn_mail_raises e :
    verify = true ->
    turn email verify h
      [EConnect h (Returns tt); EHelo h (Returns 250%Z); EMail h [] (Raises e)]
      (inner e)
| turn_rcpt_raises e :
    verify = true ->
    turn email verify h
      [EConnect h (Returns tt); EHelo h (Returns 250%Z); EMail h [] (Returns tt);
       ERcpt h email (Raises e)]
      (inner e)
| turn_rcpt_refused status :
    verify = true -> status <> 250%Z ->
    turn email verify h
      [EConnect h (Returns tt); EHelo h (Returns 250%Z); EMail h [] (Returns tt);
       ERcpt h email (Returns status)]
      (Returns (Return false))
| turn_rcpt_accepted :
    verify = true ->
    turn email verify h
      [EConnect h (Returns tt); EHelo h (Returns 250%Z); EMail h [] (Returns tt);
       ERcpt h email (Returns 250%Z)]
      (Returns Break).

(** The courses the loop can take over a list of MX records. *)
Inductive course (email : pystr) (verify : bool)
  : list mx_record -> trace -> outcome (option bool) -> Prop :=
| course_exhausted :
    course email verify [] [] (Returns None)
| course_next mx rest t t' r :
    turn email verify (snd mx) t (Returns Next) ->
    course email verify rest t' r ->
    course email verify (mx :: rest) (t ++ t') r
| course_left mx rest t f :
    turn email verify (snd mx) t (Returns f) -> f <> Next ->
    course email verify (mx :: rest) t (Returns (leaves f))
| course_raised mx rest t e :
    turn email verify (snd mx) t (Raises e) ->
    course email verify (mx :: rest) t (Raises e).

(** The runs [validate_email] can have: [valid] is the answer of the
    pattern, [dns] tells whether the [DNS] module is there. *)
Inductive outline (email : pystr) (check_mx verify valid dns : bool)
  : trace -> outcome bool -> Prop :=
| outline_invalid :
    valid = false ->
    outline email check_mx verify valid dns [] (Returns false)
| outline_syntax_only :
    valid = true -> check_mx = false -> verify = false ->
    outline email check_mx verify valid dns [] (Returns true)
| outline_no_dns :
    valid = true -> check_mx || verify = true -> dns = false ->
    outline email check_mx verify valid dns [] (Raises (Exception_ CONFIG_MESSAGE))
| outline_discover_raises e :
    valid = true -> check_mx || verify = true -> dns = true ->
    outline email check_mx verify valid dns [EDiscover (Raises e)] (outer e)
| outline_mxlookup_raises e :
    valid = true -> check_mx || verify = true -> dns = true ->
    outline email check_mx verify valid dns
      [EDiscover (Returns tt); EMxLookup (hostname_of email) (Raises e)] (outer e)
| outline_loop hosts t r :
    valid = true -> check_mx || verify = true -> dns = true ->
    course email verify hosts t r ->
    outline email check_mx verify valid dns
      (EDiscover (Returns tt) :: EMxLookup (hostname_of email) (Returns hosts) :: t)
      (finish r).

(** Is the module-level name [DNS] a module? *)
Definition has_dns {W : Type} (DNS : option (DNS_module W)) : bool :=
  match DNS with
  | Some _ => true
  | None => false
  end.

(** A recipient check that was answered with 250. *)
Definition rcpt_accepted (e : event) : bool :=
  match e with
  | ERcpt _ _ (Returns status) => (status =? 250)%Z
  | _ => false
  end.

(** A connection that was opened. *)
Definition connected (e : event) : bool :=
  match e with
  | EConnect _ (Returns _) => true
  | _ => false
  end.

(** A call of the handshake: [HELO], [MAIL FROM] or [RCPT TO]. *)
Definition handshake (e : event) : bool :=
  match e with
  | EHelo _ _ | EMail _ _ _ | ERcpt _ _ _ => true
  | _ => false
  end.

(** The exception a call ended with, if it did. *)
Definition raised (e : event) : option exn :=
  match e with
  | EDiscover (Raises x) | EMxLookup _ (Raises x)
  | EConnect _ (Raises x) | EHelo _ (Raises x)
  | EMail _ _ (Raises x) | ERcpt _ _ (Raises x) => Some x
  | _ => None
  end.

(** An answer that sends the loop to the next record: a greeting answered
    with a code other than 250, or an [SMTPConnectError]. *)
Definition skipped (e : event) : bool :=
  match e with
  | EHelo _ (Returns status) => negb (status =? 250)%Z
  | EConnect _ (Raises SMTPConnectError)
  | EHelo _ (Raises SMTPConnectError)
  | EMail _ _ (Raises SMTPConnectError)
  | ERcpt _ _ (Raises SMTPConnectError) => true
  | _ => false
  end.

(** The exceptions the outer handler turns into [False]. *)
Definition caught_outside (x : exn) : bool :=
  match x with
  | AssertionError | ServerError => true
  | _ => false
  end.

(** What each call is made with: an empty sender, the address under test as
    recipient, the slice after the first [@] as the name to look up. *)
Definition addressed (email : pystr) (e : event) : Prop :=
  match e with
  | EMxLookup name _ => name = hostname_of email
  | EMail _ sender _ => sender = []
  | ERcpt _ recipient _ => recipient = email
  | _ => True
  end.

(** A kind of event [P] ends every turn it occurs in with [f]. *)
Definition ends_turn (email : pystr) (verify : bool) (P : event -> bool) (f : flow)
  : Prop :=
  forall h t r,
    turn email verify h t r ->
    stops_at P t
    /\ (r = Returns Next -> free_of P t)
    /\ (forall e, In e t -> P e = true -> r = Returns f).

(** *** More worlds without state *)

(** 502 to the greeting: command not implemented. *)
Definition unwelcoming : host_behaviour :=
  {| on_connect := Returns tt; on_helo := Returns 502%Z;
     on_mail := Returns tt; on_rcpt := Returns 250%Z |}.

(** Name servers are found; the lookup of MX records raises [x]. *)
Definition failing_dns (x : exn) : DNS_module unit :=
  {| DiscoverNameServers := fun w => (w, Returns tt);
     mxlookup := fun _ w => (w, Raises x) |}.

(** Name servers are found; [name] has the MX records [hosts], and the
    lookup of any other name raises [ServerError]. *)
Definition dns_knowing (name : pystr) (hosts : list mx_record) : DNS_module unit :=
  {| DiscoverNameServers := fun w => (w, Returns tt);
     mxlookup := fun n w =>
       (w, if pystr_eqb n name then Returns hosts else Raises ServerError) |}.

(** The run in the world where [DNS.mxlookup] lists [hosts] and each
    exchanger behaves as [b] says. *)
Definition static_run (hosts : list mx_record) (b : pystr -> host_behaviour)
           (email : pystr) (check_mx verify : bool)
  : unit * trace * outcome bool :=
  validate_email unit ascii_only (Some (static_dns hosts)) (static_smtp b)
    email check_mx verify tt.

(** The calls made in a run, and its result. *)
Definition calls {W : Type} (run : W * trace * outcome bool) : trace := snd (fst run).
Definition result {W : Type} (run : W * trace * outcome bool) : outcome bool := snd run.

(* ================================================================== *)
(** ** The domain the specification describes *)

(** The specification's reading of the domain: what follows the last [@] that
    is not escaped, a backslash escaping the character after it.  [None] when
    there is no such [@]. *)
Fixpoint spec_after_last_unescaped_at (s : pystr) : option pystr :=
  match s with
  | [] => None
  | x :: s' =>
      if (x =? BACKSLASH)%N then
        match s' with
        | [] => None
        | _ :: s'' => spec_after_last_unescaped_at s''
        end
      else
        match spec_after_last_unescaped_at s' with
        | Some d => Some d
        | None => if (x =? AT)%N then Some s' else None
        end
  end.

(** The names [mxlookup] was called with. *)
Fixpoint looked_up (tr : trace) : list pystr :=
  match tr with
  | [] => []
  | EMxLookup name _ :: tr' => name :: looked_up tr'
  | _ :: tr' => looked_up tr'
  end.

(** [s.count(c)] for a one-character needle. *)
Fixpoint count (c : N) (s : pystr) : nat :=
  match s with
  | [] => 0
  | x :: s' => if (x =? c)%N then S (count c s') else count c s'
  end.

(** Two exchangers, in the order [DNS.mxlookup] lists them. *)
Definition two_hosts : list mx_record := [(10%Z, mx1); (20%Z, mx2)].

Definition user_at_example : pystr := py "user@example.com".

(** A quoted local part with an [@] in it: the quoted string a@b, then
    [@example.com]. *)
Definition quoted_at : pystr := py (DQ ++ "a@b" ++ DQ ++ "@example.com")%string.

(* ================================================================== *)
(** ** The pattern compiles to what the definitions above say *)

Lemma compile_LOCAL_PART : Re.compile LOCAL_PART = Some local_part_re.
Proof. vm_compute. reflexivity. Qed.

Lemma compile_DOMAIN : Re.compile DOMAIN = Some domain_re.
Proof. vm_compute. reflexivity. Qed.

Lemma compile_ADDR_SPEC : Re.compile ADDR_SPEC = Some addr_spec_re.
Proof. vm_compute. reflexivity. Qed.

Lemma compile_VALID_ADDRESS_REGEXP :
  Re.compile VALID_ADDRESS_REGEXP = Some valid_address_re.
Proof. vm_compute. reflexivity. Qed.

(* ================================================================== *)
(** ** Properties of the matcher *)

Create HintDb sfx.

Section MatcherFacts.

Variable unicode_isalnum : N -> bool.

Lemma suffix_refl s : suffix s s.
Proof. exists []. reflexivity. Qed.

Lemma suffix_cons x s' s : suffix s' s -> suffix s' (x :: s).
Proof. intros [p ->]. exists (x :: p). reflexivity. Qed.

Lemma suffix_trans a b c : suffix a b -> suffix b c -> suffix a c.
Proof.
  intros [p ->] [q ->]. exists (q ++ p). now rewrite app_assoc.
Qed.

Lemma suffix_tail x s : suffix s (x :: s).
Proof. apply suffix_cons, suffix_refl. Qed.

#[local] Hint Resolve suffix_refl suffix_cons suffix_tail : sfx.

Lemma iterate_reaches step :
  reaches step -> forall fuel, reaches (Re.iterate step fuel).
Proof.
  intros Hstep fuel. induction fuel as [|f IH]; intros s k H; simpl in H.
  - destruct (k s) eqn:Hk; [|discriminate]. exists s. auto with sfx.
  - destruct (k s) eqn:Hk.
    + exists s. auto with sfx.
    + apply Hstep in H. destruct H as (s1 & Hs1 & H).
      destruct (List.length s1 <? List.length s)%nat; [|discriminate].
      apply IH in H. destruct H as (s2 & Hs2 & H).
      exists s2. split; [eapply suffix_trans; eauto | exact H].
Qed.

Lemma accepts_reaches total r : reaches (Re.accepts unicode_isalnum total r).
Proof.
  induction r; intros s k H; cbn [Re.accepts] in H.
  - exists s. auto with sfx.
  - destruct s as [|x s]; [discriminate|].
    destruct (x =? c)%N; [|discriminate]. exists s. auto with sfx.
  - destruct s as [|x s]; [discriminate|].
    destruct (x =? LF)%N; [discriminate|]. exists s. auto with sfx.
  - destruct s as [|x s]; [discriminate|].
    destruct (Re.in_class unicode_isalnum x items); [|discriminate].
    exists s. auto with sfx.
  - apply IHr1 in H. destruct H as (s1 & Hs1 & H).
    apply IHr2 in H. destruct H as (s2 & Hs2 & H).
    exists s2. split; [eapply suffix_trans; eauto | exact H].
  - destruct (Re.accepts unicode_isalnum total r1 s k) eqn:H1.
    + apply IHr1 in H1. exact H1.
    + apply IHr2 in H. exact H.
  - apply (iterate_reaches _ IHr) in H. exact H.
  - apply IHr in H. destruct H as (s1 & Hs1 & H).
    apply (iterate_reaches _ IHr) in H. destruct H as (s2 & Hs2 & H).
    exists s2. split; [eapply suffix_trans; eauto | exact H].
  - destruct (Re.accepts unicode_isalnum total r s k) eqn:H1.
    + apply IHr in H1. exact H1.
    + exists s. auto with sfx.
  - destruct (List.length s =? total)%nat; [|discriminate].
    exists s. auto with sfx.
  - destruct s as [|x [|y s]]; try discriminate.
    + exists []. auto with sfx.
    + destruct (x =? LF)%N; [|discriminate]. exists [x]. auto with sfx.
Qed.

Lemma iterate_local step :
  local step -> forall fuel, local (Re.iterate step fuel).
Proof.
  intros Hstep fuel. induction fuel as [|f IH]; intros s k1 k2 Hk; simpl.
  - rewrite (Hk s) by auto with sfx. reflexivity.
  - rewrite (Hk s) by auto with sfx.
    destruct (k2 s); [reflexivity|].
    apply Hstep. intros s1 Hs1.
    destruct (List.length s1 <? List.length s)%nat; [|reflexivity].
    apply IH. intros s2 Hs2. apply Hk. eapply suffix_trans; eauto.
Qed.

Lemma accepts_local total r : local (Re.accepts unicode_isalnum total r).
Proof.
  induction r; intros s k1 k2 Hk; cbn [Re.accepts].
  - apply Hk; auto with sfx.
  - destruct s as [|x s]; [reflexivity|].
    destruct (x =? c)%N; [|reflexivity]. apply Hk; auto with sfx.
  - destruct s as [|x s]; [reflexivity|].
    destruct (x =? LF)%N; [reflexivity|]. apply Hk; auto with sfx.
  - destruct s as [|x s]; [reflexivity|].
    destruct (Re.in_class unicode_isalnum x items); [|reflexivity].
    apply Hk; auto with sfx.
  - apply IHr1. intros s1 Hs1. apply IHr2. intros s2 Hs2.
    apply Hk. eapply suffix_trans; eauto.
  - rewrite (IHr1 s k1 k2 Hk), (IHr2 s k1 k2 Hk). reflexivity.
  - apply iterate_local; assumption.
  - apply IHr. intros s1 Hs1. apply iterate_local; [assumption|].
    intros s2 Hs2. apply Hk. eapply suffix_trans; eauto.
  - rewrite (IHr s k1 k2 Hk), (Hk s) by auto with sfx. reflexivity.
  - rewrite (Hk s) by auto with sfx. reflexivity.
  - destruct s as [|x [|y s]]; try reflexivity.
    + apply Hk; auto with sfx.
    + rewrite (Hk [x]) by auto with sfx. reflexivity.
Qed.

End MatcherFacts.

(* ================================================================== *)
(** ** [find] and the slice after the first [@] *)

Lemma find_first (c : N) (pre post : pystr) :
  ~ In c pre -> find c (pre ++ c :: post) = Z.of_nat (List.length pre).
Proof.
  induction pre as [|x pre IH]; intros Hnin; simpl.
  - rewrite N.eqb_refl. reflexivity.
  - destruct (N.eqb_spec x c) as [->|Hxc].
    + exfalso. apply Hnin. left. reflexivity.
    + rewrite IH by (intros Hin; apply Hnin; right; exact Hin).
      destruct (List.length pre); simpl; try reflexivity.
      f_equal. lia.
Qed.

Lemma find_absent (c : N) (s : pystr) : ~ In c s -> find c s = (-1)%Z.
Proof.
  induction s as [|x s IH]; intros Hnin; simpl; [reflexivity|].
  destruct (N.eqb_spec x c) as [->|Hxc].
  - exfalso. apply Hnin. left. reflexivity.
  - rewrite IH by (intros Hin; apply Hnin; right; exact Hin). reflexivity.
Qed.

Lemma split_first (c : N) (s : pystr) :
  In c s -> exists pre post, s = pre ++ c :: post /\ ~ In c pre.
Proof.
  induction s as [|x s IH]; intros Hin; [destruct Hin|].
  destruct (N.eq_dec x c) as [->|Hxc].
  - exists [], s. split; [reflexivity | intros []].
  - destruct Hin as [Hx|Hin]; [contradiction|].
    destruct (IH Hin) as (pre & post & -> & Hpre).
    exists (x :: pre), post. split; [reflexivity|].
    intros [H|H]; [contradiction | exact (Hpre H)].
Qed.

Lemma hostname_of_first_at pre post :
  ~ In AT pre -> hostname_of (pre ++ AT :: post) = post.
Proof.
  intros Hnin. unfold hostname_of, slice_from.
  rewrite find_first by assumption.
  replace (Z.to_nat (Z.of_nat (List.length pre) + 1)) with (S (List.length pre)) by lia.
  replace (S (List.length pre)) with (List.length (pre ++ [AT])).
  - replace (pre ++ AT :: post) with ((pre ++ [AT]) ++ post)
      by (rewrite <- app_assoc; reflexivity).
    rewrite skipn_app, skipn_all, Nat.sub_diag. reflexivity.
  - rewrite length_app. simpl. lia.
Qed.

(** Without an [@], the slice is the whole string: [find] gives -1. *)
Lemma hostname_of_no_at s : ~ In AT s -> hostname_of s = s.
Proof.
  intros Hnin. unfold hostname_of, slice_from.
  rewrite find_absent by assumption. reflexivity.
Qed.

(* ================================================================== *)
(** ** What the pattern accepts *)

Section PatternFacts.

Variable unicode_isalnum : N -> bool.

(** The shape of the two patterns, for any local part and domain. *)
Section Shape.

Variables lp dom : Re.regex.

Let anchored := anchored_pattern lp dom.
Let bare := bare_pattern lp dom.

Lemma anchored_unfold s :
  Re.matches unicode_isalnum anchored s = Re.accepts unicode_isalnum (List.length s) bare s at_end.
Proof.
  unfold Re.matches, anchored, bare, anchored_pattern, bare_pattern.
  cbn [Re.accepts]. rewrite Nat.eqb_refl.
  apply accepts_local. intros s1 _.
  destruct s1 as [|x s1]; [reflexivity|].
  destruct (x =? AT)%N; [|reflexivity].
  apply accepts_local. intros s2 _.
  destruct s2 as [|y [|z s2]]; try reflexivity.
  unfold at_end. destruct (y =? LF)%N; reflexivity.
Qed.

Lemma anchored_has_at s :
  Re.matches unicode_isalnum anchored s = true -> In AT s.
Proof.
  rewrite anchored_unfold. unfold bare, bare_pattern. cbn [Re.accepts].
  intros H. apply accepts_reaches in H. destruct H as (s1 & [p ->] & H).
  destruct s1 as [|x s1]; [discriminate|].
  destruct (N.eqb_spec x AT) as [->|]; [|discriminate].
  apply in_or_app. right. left. reflexivity.
Qed.

Lemma anchored_fullmatch s :
  last s 0%N <> LF ->
  Re.matches unicode_isalnum anchored s = Re.fullmatches unicode_isalnum bare s.
Proof.
  intros Hlast. rewrite anchored_unfold. unfold Re.fullmatches.
  apply accepts_local. intros s1 [p ->].
  destruct s1 as [|x [|y s1]]; try reflexivity.
  unfold at_end. destruct (N.eqb_spec x LF) as [->|]; [|reflexivity].
  exfalso. apply Hlast. apply last_last.
Qed.

End Shape.

(** The anchored pattern is [ADDR_SPEC] followed by the test of [$]. *)
Lemma syntactically_valid_unfold s :
  syntactically_valid unicode_isalnum s
  = Re.accepts unicode_isalnum (List.length s) addr_spec_re s at_end.
Proof. exact (anchored_unfold local_part_re domain_re s). Qed.

(** Every accepted string has an [@]. *)
Lemma valid_has_at s :
  syntactically_valid unicode_isalnum s = true -> In AT s.
Proof. exact (anchored_has_at local_part_re domain_re s). Qed.

Lemma no_at_invalid s :
  ~ In AT s -> syntactically_valid unicode_isalnum s = false.
Proof.
  intros Hnin. destruct (syntactically_valid unicode_isalnum s) eqn:E; [|reflexivity].
  exfalso. apply Hnin, valid_has_at, E.
Qed.

(** Away from a final line feed, [^...$] with [re.match] is a match of the
    whole string. *)
Lemma valid_iff_addr_spec s :
  last s 0%N <> LF ->
  syntactically_valid unicode_isalnum s = is_addr_spec unicode_isalnum s.
Proof. exact (anchored_fullmatch local_part_re domain_re s). Qed.

End PatternFacts.

(* ================================================================== *)
(** ** Traces that stop at an event *)

Lemma stops_at_nil P : stops_at P [].
Proof. intros [|x t1] e t2 H; discriminate. Qed.

Lemma stops_at_single P e : stops_at P [e].
Proof.
  intros [|x [|y t1]] e' t2 H _; simpl in H; inversion H; reflexivity.
Qed.

Lemma stops_at_cons P e tr :
  P e = false -> stops_at P tr -> stops_at P (e :: tr).
Proof.
  intros He Htr [|x t1] e' t2 H HP; simpl in H; inversion H; subst.
  - congruence.
  - eapply Htr; eauto.
Qed.

Lemma free_of_nil P : free_of P [].
Proof. intros e []. Qed.

Lemma free_of_cons P e tr :
  P e = false -> free_of P tr -> free_of P (e :: tr).
Proof. intros He Htr e' [<-|Hin]; auto. Qed.

Lemma contacted_app t t' : contacted (t ++ t') = contacted t ++ contacted t'.
Proof.
  induction t as [|e t IH]; simpl; [reflexivity|].
  destruct e; simpl; rewrite IH; reflexivity.
Qed.

Lemma split_at_first_kind P (t t' t1 t2 : trace) e :
  free_of P t -> P e = true -> t ++ t' = t1 ++ e :: t2 ->
  exists t1', t1 = t ++ t1' /\ t' = t1' ++ e :: t2.
Proof.
  revert t1. induction t as [|x t IH]; intros t1 Hfree HP H; simpl in H.
  - exists t1. split; [reflexivity | exact H].
  - destruct t1 as [|y t1]; simpl in H; inversion H; subst.
    + rewrite (Hfree e) in HP; [discriminate | left; reflexivity].
    + destruct (IH t1) as (t1' & -> & ->); auto.
      * intros e' He'. apply Hfree. right. exact He'.
      * exists t1'. split; reflexivity.
Qed.

(* ================================================================== *)
(** ** Runs of [validate_email] *)

Section Runs.

Variable W : Type.
Variable unicode_isalnum : N -> bool.
Variable smtplib : SMTP_library W.

Ltac step_world :=
  match goal with
  | |- context [connect ?l ?h ?w] =>
      let e := fresh "Hconnect" in destruct (connect l h w) as [? [[]|[]]] eqn:e
  | |- context [helo ?l ?h ?w] =>
      let e := fresh "Hhelo" in destruct (helo l h w) as [? [?|[]]] eqn:e
  | |- context [mail ?l ?h ?f ?w] =>
      let e := fresh "Hmail" in destruct (mail l h f w) as [? [[]|[]]] eqn:e
  | |- context [rcpt ?l ?h ?a ?w] =>
      let e := fresh "Hrcpt" in destruct (rcpt l h a w) as [? [?|[]]] eqn:e
  | |- context [(?x =? 250)%Z] =>
      let e := fresh "Hstatus" in destruct (x =? 250)%Z eqn:e
  end; cbn [negb app fst snd].

Ltac kind_of_event :=
  cbn [rcpt_refused disconnected];
  repeat match goal with H : (_ =? 250)%Z = _ |- _ => rewrite H end;
  reflexivity.

Ltac stops_here :=
  repeat (apply stops_at_cons; [kind_of_event|]);
  first [apply stops_at_single | apply stops_at_nil].

Ltac free_here :=
  repeat (apply free_of_cons; [kind_of_event|]); apply free_of_nil.

Ltac which_event :=
  let e := fresh "e" in
  let Hin := fresh "Hin" in
  let HP := fresh "HP" in
  intros e Hin HP; cbn [In] in Hin;
  repeat (destruct Hin as [<-|Hin]; [|]);
  try contradiction;
  cbn [rcpt_refused disconnected] in HP;
  repeat match goal with H : (_ =? 250)%Z = _ |- _ => rewrite H in HP end;
  first [discriminate HP | reflexivity].

(** One turn of the loop contacts its host and no other; a refused recipient
    or a disconnection is the last thing that happens in it, and decides how
    it ends. *)
Lemma probe_spec email verify mx w w' t r :
  probe W smtplib email verify mx w = (w', t, r) ->
  contacted t = [snd mx]
  /\ stops_at rcpt_refused t
  /\ stops_at disconnected t
  /\ (r = Returns Next -> free_of rcpt_refused t /\ free_of disconnected t)
  /\ (forall e, In e t -> rcpt_refused e = true -> r = Returns (Return false))
  /\ (forall e, In e t -> disconnected e = true -> r = Returns Break)
  /\ (forall e, In e t -> smtp_host e = Some (snd mx)).
Proof.
  unfold probe, try_except, bind, call, ret, raise.
  destruct verify; cbn [negb].
  all: repeat step_world.
  all: intros H; inversion H; subst; clear H.
  all: split; [reflexivity|].
  all: split; [stops_here|].
  all: split; [stops_here|].
  all: split; [intros Hr; try discriminate Hr; split; free_here|].
  all: split; [which_event|].
  all: split; [which_event|].
  all: intros e Hin; cbn [In] in Hin;
    repeat (destruct Hin as [<-|Hin]; [reflexivity|]); contradiction.
Qed.

Section Stop.

(** A kind of event that ends the turn it occurs in with [f], and that no
    turn ending with [Next] has. *)
Variable P : event -> bool.
Variable f : flow.
Hypothesis probe_P :
  forall email verify mx w w' t r,
    probe W smtplib email verify mx w = (w', t, r) ->
    stops_at P t
    /\ (r = Returns Next -> free_of P t)
    /\ (forall e, In e t -> P e = true -> r = Returns f).

(** Then it ends the loop: nothing follows it, and the hosts contacted are
    the records up to the one of the event. *)
Lemma for_mx_stops email verify hosts w w' t r :
  for_mx W smtplib email verify hosts w = (w', t, r) ->
  forall t1 e t2,
    t = t1 ++ e :: t2 -> P e = true ->
    r = Returns (leaves f)
    /\ t2 = []
    /\ exists pre mx post,
         hosts = pre ++ mx :: post
         /\ contacted t = map snd pre ++ [snd mx]
         /\ smtp_host e = Some (snd mx).
Proof.
  revert w w' t r. induction hosts as [|mx rest IH]; intros w w' t r Hrun t1 e t2 Ht HP.
  - cbn in Hrun. inversion Hrun; subst. destruct t1; discriminate.
  - cbn [for_mx] in Hrun. unfold bind in Hrun.
    destruct (probe W smtplib email verify mx w) as [[w1 tp] rp] eqn:Hp.
    destruct (probe_spec _ _ _ _ _ _ _ Hp) as (Hc & _ & _ & _ & _ & _ & Hhost).
    destruct (probe_P _ _ _ _ _ _ _ Hp) as (Hstop & Hfree & Hend).
    assert (Hdone : forall r0,
              rp = r0 -> t = tp ->
              r = match r0 with
                  | Returns g => Returns (leaves g)
                  | Raises x => Raises x
                  end ->
              r = Returns (leaves f) /\ t2 = [] /\
              exists pre mx0 post,
                mx :: rest = pre ++ mx0 :: post
                /\ contacted t = map snd pre ++ [snd mx0]
                /\ smtp_host e = Some (snd mx0)).
    { intros r0 -> -> Hr.
      assert (Hin : In e tp) by (rewrite Ht; apply in_or_app; right; left; reflexivity).
      specialize (Hend e Hin HP). subst r0.
      split; [exact Hr|]. split; [eapply Hstop; eauto|].
      exists [], mx, rest. split; [reflexivity|]. split; [exact Hc|].
      apply Hhost, Hin. }
    destruct rp as [[| |b]|x].
    + destruct (for_mx W smtplib email verify rest w1) as [[w2 t'] r'] eqn:Hrest.
      revert Ht. inversion Hrun; subst; clear Hrun. intros Ht.
      destruct (split_at_first_kind P tp t' t1 t2 e (Hfree eq_refl) HP Ht)
        as (t1' & -> & Ht').
      destruct (IH _ _ _ _ Hrest _ _ _ Ht' HP) as (Hr & Ht2 & pre & mx0 & post & Hh & Hct & He).
      split; [exact Hr|]. split; [exact Ht2|].
      exists (mx :: pre), mx0, post. split; [rewrite Hh; reflexivity|].
      split; [|exact He].
      rewrite contacted_app, Hc, Hct. reflexivity.
    + cbn in Hrun. rewrite app_nil_r in Hrun.
      apply (Hdone (Returns Break)); [reflexivity| |]; inversion Hrun; reflexivity.
    + cbn in Hrun. rewrite app_nil_r in Hrun.
      apply (Hdone (Returns (Return b))); [reflexivity| |]; inversion Hrun; reflexivity.
    + apply (Hdone (Raises x)); [reflexivity| |]; inversion Hrun; reflexivity.
Qed.

End Stop.

Lemma re_match_valid s w :
  re_match W unicode_isalnum VALID_ADDRESS_REGEXP s w
  = (w, [], Returns (syntactically_valid unicode_isalnum s)).
Proof.
  unfold re_match. rewrite compile_VALID_ADDRESS_REGEXP. reflexivity.
Qed.

(** A string the pattern rejects: [False], whatever the flags. *)
Lemma validate_invalid DNS s check_mx verify w :
  syntactically_valid unicode_isalnum s = false ->
  validate_email W unicode_isalnum DNS smtplib s check_mx verify w
  = (w, [], Returns false).
Proof.
  intros Hs. unfold validate_email, try_except, bind.
  rewrite re_match_valid, Hs. reflexivity.
Qed.

(** A string the pattern accepts, no check asked for: [True]. *)
Lemma validate_syntax_only DNS s w :
  syntactically_valid unicode_isalnum s = true ->
  validate_email W unicode_isalnum DNS smtplib s false false w
  = (w, [], Returns true).
Proof.
  intros Hs. unfold validate_email, try_except, bind.
  rewrite re_match_valid, Hs. reflexivity.
Qed.

(** A check asked for, and no [DNS] module. *)
Lemma validate_no_dns s check_mx verify w :
  syntactically_valid unicode_isalnum s = true ->
  check_mx || verify = true ->
  validate_email W unicode_isalnum None smtplib s check_mx verify w
  = (w, [], Raises (Exception_ CONFIG_MESSAGE)).
Proof.
  intros Hs Hc. unfold validate_email, try_except, bind.
  rewrite re_match_valid, Hs, Hc. reflexivity.
Qed.

(** A check asked for, with a [DNS] module: name servers, MX records, then
    the loop. *)
Lemma validate_mx dns s check_mx verify w :
  syntactically_valid unicode_isalnum s = true ->
  check_mx || verify = true ->
  validate_email W unicode_isalnum (Some dns) smtplib s check_mx verify w
  = match DiscoverNameServers dns w with
    | (w1, Raises e) => (w1, [EDiscover (Raises e)], outer e)
    | (w1, Returns u) =>
        match mxlookup dns (hostname_of s) w1 with
        | (w2, Raises e) =>
            (w2, [EDiscover (Returns u); EMxLookup (hostname_of s) (Raises e)],
             outer e)
        | (w2, Returns hosts) =>
            match for_mx W smtplib s verify hosts w2 with
            | (w3, t, r) =>
                (w3,
                 EDiscover (Returns u) :: EMxLookup (hostname_of s) (Returns hosts) :: t,
                 finish r)
            end
        end
    end.
Proof.
  intros Hs Hc. unfold validate_email, try_except, bind, call.
  rewrite re_match_valid, Hs, Hc. cbn [assert_ ret].
  destruct (DiscoverNameServers dns w) as [w1 [u|e]].
  - destruct (mxlookup dns (hostname_of s) w1) as [w2 [hosts|e]].
    + destruct (for_mx W smtplib s verify hosts w2) as [[w3 t] [[b|]|e]];
        cbn; rewrite ?app_nil_r; try reflexivity.
      destruct e; cbn; rewrite ?app_nil_r; reflexivity.
    + destruct e; cbn; reflexivity.
  - destruct e; cbn; reflexivity.
Qed.

End Runs.

(* ================================================================== *)
(** ** The two events that end the loop *)

Section Stops.

Variable W : Type.
Variable smtplib : SMTP_library W.

Lemma probe_refused email verify mx w w' t r :
  probe W smtplib email verify mx w = (w', t, r) ->
  stops_at rcpt_refused t
  /\ (r = Returns Next -> free_of rcpt_refused t)
  /\ (forall e, In e t -> rcpt_refused e = true -> r = Returns (Return false)).
Proof.
  intros H. apply probe_spec in H. destruct H as (_ & Hs & _ & Hf & He & _).
  split; [exact Hs|]. split; [|exact He]. intros Hr. apply Hf, Hr.
Qed.

Lemma probe_disconnected email verify mx w w' t r :
  probe W smtplib email verify mx w = (w', t, r) ->
  stops_at disconnected t
  /\ (r = Returns Next -> free_of disconnected t)
  /\ (forall e, In e t -> disconnected e = true -> r = Returns Break).
Proof.
  intros H. apply probe_spec in H. destruct H as (_ & _ & Hs & Hf & _ & He & _).
  split; [exact Hs|]. split; [|exact He]. intros Hr. apply Hf, Hr.
Qed.

(** The sibling handler: an [SMTPConnectError] from [connect] sends the loop
    to the next record. *)
Lemma probe_connect_error email verify mx w w1 :
  connect smtplib (snd mx) w = (w1, Raises SMTPConnectError) ->
  probe W smtplib email verify mx w
  = (w1, [EConnect (snd mx) (Raises SMTPConnectError)], Returns Next).
Proof.
  intros H. unfold probe, try_except, bind, call. rewrite H. reflexivity.
Qed.

(** An exception of [connect] that neither handler of the loop names leaves
    the loop. *)
Lemma probe_connect_socket_error email verify mx w w1 :
  connect smtplib (snd mx) w = (w1, Raises socket_error) ->
  probe W smtplib email verify mx w
  = (w1, [EConnect (snd mx) (Raises socket_error)], Raises socket_error).
Proof.
  intros H. unfold probe, try_except, bind, call. rewrite H. reflexivity.
Qed.

(** A run that made calls was a run on an accepted address, with a [DNS]
    module, that got its MX records if it went past the lookup. *)
Lemma validate_trace unicode_isalnum DNS email check_mx verify w w' tr res
      (t1 : trace) (e : event) (t2 : trace) :
  validate_email W unicode_isalnum DNS smtplib email check_mx verify w = (w', tr, res) ->
  tr = t1 ++ e :: t2 ->
  is_smtp e = true ->
  exists u hosts w2 t r t1',
    for_mx W smtplib email verify hosts w2 = (w', t, r)
    /\ tr = EDiscover (Returns u) :: EMxLookup (hostname_of email) (Returns hosts) :: t
    /\ t = t1' ++ e :: t2
    /\ res = finish r.
Proof.
  intros Hrun Htr He.
  destruct (syntactically_valid unicode_isalnum email) eqn:Hs.
  2:{ rewrite validate_invalid in Hrun by assumption.
      inversion Hrun; subst. destruct t1; discriminate. }
  destruct (check_mx || verify) eqn:Hc.
  2:{ apply orb_false_elim in Hc. destruct Hc as [-> ->].
      rewrite validate_syntax_only in Hrun by assumption.
      inversion Hrun; subst. destruct t1; discriminate. }
  destruct DNS as [dns|].
  2:{ rewrite validate_no_dns in Hrun by assumption.
      inversion Hrun; subst. destruct t1; discriminate. }
  rewrite validate_mx in Hrun by assumption.
  destruct (DiscoverNameServers dns w) as [w1 [u|x]].
  2:{ inversion Hrun; subst.
      destruct t1 as [|? [|? ?]]; inversion H1; subst; discriminate. }
  destruct (mxlookup dns (hostname_of email) w1) as [w2 [hosts|x]].
  2:{ inversion Hrun; subst.
      destruct t1 as [|? [|? [|? ?]]]; inversion H1; subst; discriminate. }
  destruct (for_mx W smtplib email verify hosts w2) as [[w3 t] r] eqn:Hloop.
  inversion Hrun; subst; clear Hrun.
  destruct t1 as [|a [|b t1]]; inversion H1; subst; try discriminate.
  exists u, hosts, w2, (t1 ++ e :: t2), r, t1.
  repeat split; assumption.
Qed.

End Stops.

(** The loop makes no DNS lookup. *)
Lemma looked_up_app a b : looked_up (a ++ b) = looked_up a ++ looked_up b.
Proof.
  induction a as [|e a IH]; [reflexivity|].
  destruct e; cbn; rewrite IH; reflexivity.
Qed.

Lemma smtp_only_no_lookup h (t : trace) :
  (forall e, In e t -> smtp_host e = Some h) -> looked_up t = [].
Proof.
  induction t as [|e t IH]; intros Hhost; [reflexivity|].
  assert (He : smtp_host e = Some h) by (apply Hhost; left; reflexivity).
  destruct e; try discriminate He; cbn [looked_up];
    apply IH; intros e' He'; apply Hhost; right; exact He'.
Qed.

Lemma for_mx_no_lookup W smtplib email verify hosts w w' t r :
  for_mx W smtplib email verify hosts w = (w', t, r) -> looked_up t = [].
Proof.
  revert w w' t r. induction hosts as [|mx hosts IH]; intros w w' t r Hloop.
  - cbn in Hloop. inversion Hloop. reflexivity.
  - cbn [for_mx] in Hloop. unfold bind in Hloop.
    destruct (probe W smtplib email verify mx w) as [[wp tp] rp] eqn:Hp.
    assert (Htp : looked_up tp = []).
    { apply probe_spec in Hp. destruct Hp as (_ & _ & _ & _ & _ & _ & Hhost).
      exact (smtp_only_no_lookup _ _ Hhost). }
    destruct rp as [[| |b]|x].
    + destruct (for_mx W smtplib email verify hosts wp) as [[w4 t4] r4] eqn:Hrest.
      inversion Hloop; subst. rewrite looked_up_app, Htp. cbn [app].
      exact (IH _ _ _ _ Hrest).
    + cbn in Hloop. inversion Hloop; subst. rewrite looked_up_app, Htp. reflexivity.
    + cbn in Hloop. inversion Hloop; subst. rewrite looked_up_app, Htp. reflexivity.
    + inversion Hloop; subst. exact Htp.
Qed.

(* ================================================================== *)
(** * The claims *)

(** C1.  During deep verification, when a recipient check is answered with a
    code other than 250, [validate_email] returns [False] and that answer is
    the last thing that happened: the hosts contacted are the MX records up
    to the one that refused, and none after it. *)
Theorem C1_refused_recipient_ends_probe :
  forall (W : Type) (unicode_isalnum : N -> bool)
         (DNS : option (DNS_module W)) (smtplib : SMTP_library W)
         (email : pystr) (check_mx : bool) (w w' : W) (tr : trace)
         (res : outcome bool) (t1 t2 : trace) (host recipient : pystr) (status : Z),
    validate_email W unicode_isalnum DNS smtplib email check_mx true w = (w', tr, res) ->
    tr = t1 ++ ERcpt host recipient (Returns status) :: t2 ->
    status <> 250%Z ->
    res = Returns false
    /\ t2 = []
    /\ exists name hosts pre priority post,
         In (EMxLookup name (Returns hosts)) tr
         /\ hosts = pre ++ (priority, host) :: post
         /\ contacted tr = map snd pre ++ [host].
Proof.
  intros W uni DNS smtplib email check_mx w w' tr res t1 t2 host rc status Hrun Htr Hst.
  destruct (validate_trace _ _ _ _ _ _ _ _ _ _ _ _ _ _ Hrun Htr eq_refl)
    as (u & hosts & w2 & t & r & t1' & Hloop & Htr' & Ht & Hres).
  assert (HP : rcpt_refused (ERcpt host rc (Returns status)) = true).
  { cbn. apply Z.eqb_neq in Hst. rewrite Hst. reflexivity. }
  destruct (for_mx_stops W smtplib rcpt_refused (Return false)
              (probe_refused W smtplib) _ _ _ _ _ _ _ Hloop _ _ _ Ht HP)
    as (Hr & Ht2 & pre & [p h] & post & Hh & Hct & Hhost).
  cbn in Hhost. inversion Hhost; subst h.
  split; [rewrite Hres, Hr; reflexivity|]. split; [exact Ht2|].
  exists (hostname_of email), hosts, pre, p, post.
  split; [rewrite Htr'; right; left; reflexivity|].
  split; [exact Hh|].
  rewrite Htr'. cbn [contacted]. exact Hct.
Qed.

Lemma C1_witness :
  validate_email unit ascii_only (Some (static_dns two_hosts))
    (static_smtp (first_then mx1 rejecting accepting)) user_at_example false true tt
  = (tt,
     [EDiscover (Returns tt); EMxLookup (py "example.com") (Returns two_hosts);
      EConnect mx1 (Returns tt); EHelo mx1 (Returns 250%Z);
      EMail mx1 [] (Returns tt)]
       ++ ERcpt mx1 user_at_example (Returns 550%Z) :: [],
     Returns false)
  /\ (Returns false = Returns false
      /\ @nil event = []
      /\ exists name hosts pre priority post,
           In (EMxLookup name (Returns hosts))
              ([EDiscover (Returns tt); EMxLookup (py "example.com") (Returns two_hosts);
                EConnect mx1 (Returns tt); EHelo mx1 (Returns 250%Z);
                EMail mx1 [] (Returns tt)]
                 ++ ERcpt mx1 user_at_example (Returns 550%Z) :: [])
           /\ hosts = pre ++ (priority, mx1) :: post
           /\ contacted
                ([EDiscover (Returns tt); EMxLookup (py "example.com") (Returns two_hosts);
                  EConnect mx1 (Returns tt); EHelo mx1 (Returns 250%Z);
                  EMail mx1 [] (Returns tt)]
                   ++ ERcpt mx1 user_at_example (Returns 550%Z) :: [])
              = map snd pre ++ [mx1]).
Proof.
  split; [vm_compute; reflexivity|].
  eapply (C1_refused_recipient_ends_probe unit ascii_only
            (Some (static_dns two_hosts))
            (static_smtp (first_then mx1 rejecting accepting))
            user_at_example false tt tt).
  - vm_compute. reflexivity.
  - reflexivity.
  - discriminate.
Defined.

(** C2, as the code has it.  During deep verification, an SMTP call that
    ends in [SMTPServerDisconnected] ends the whole loop: it is the last call
    made, no later MX record is contacted, and [validate_email] returns
    [True]. *)
Theorem C2_disconnection_ends_probe :
  forall (W : Type) (unicode_isalnum : N -> bool)
         (DNS : option (DNS_module W)) (smtplib : SMTP_library W)
         (email : pystr) (check_mx : bool) (w w' : W) (tr : trace)
         (res : outcome bool) (t1 t2 : trace) (e : event),
    validate_email W unicode_isalnum DNS smtplib email check_mx true w = (w', tr, res) ->
    tr = t1 ++ e :: t2 ->
    disconnected e = true ->
    res = Returns true
    /\ t2 = []
    /\ exists name hosts pre mx post,
         In (EMxLookup name (Returns hosts)) tr
         /\ hosts = pre ++ mx :: post
         /\ smtp_host e = Some (snd mx)
         /\ contacted tr = map snd pre ++ [snd mx].
Proof.
  intros W uni DNS smtplib email check_mx w w' tr res t1 t2 e Hrun Htr HP.
  assert (Hsmtp : is_smtp e = true)
    by (destruct e; first [reflexivity | discriminate HP]).
  destruct (validate_trace _ _ _ _ _ _ _ _ _ _ _ _ _ _ Hrun Htr Hsmtp)
    as (u & hosts & w2 & t & r & t1' & Hloop & Htr' & Ht & Hres).
  destruct (for_mx_stops W smtplib disconnected Break
              (probe_disconnected W smtplib) _ _ _ _ _ _ _ Hloop _ _ _ Ht HP)
    as (Hr & Ht2 & pre & mx & post & Hh & Hct & Hhost).
  split; [rewrite Hres, Hr; reflexivity|]. split; [exact Ht2|].
  exists (hostname_of email), hosts, pre, mx, post.
  split; [rewrite Htr'; right; left; reflexivity|].
  split; [exact Hh|]. split; [exact Hhost|].
  rewrite Htr'. cbn [contacted]. exact Hct.
Qed.

Lemma C2_witness :
  Returns true = Returns true
  /\ @nil event = []
  /\ exists name hosts pre mx post,
       In (EMxLookup name (Returns hosts))
          ([EDiscover (Returns tt); EMxLookup (py "example.com") (Returns two_hosts);
            EConnect mx1 (Returns tt)]
             ++ EHelo mx1 (Raises SMTPServerDisconnected) :: [])
       /\ hosts = pre ++ mx :: post
       /\ smtp_host (EHelo mx1 (Raises SMTPServerDisconnected)) = Some (snd mx)
       /\ contacted
            ([EDiscover (Returns tt); EMxLookup (py "example.com") (Returns two_hosts);
              EConnect mx1 (Returns tt)]
               ++ EHelo mx1 (Raises SMTPServerDisconnected) :: [])
          = map snd pre ++ [snd mx].
Proof.
  eapply (C2_disconnection_ends_probe unit ascii_only
            (Some (static_dns two_hosts))
            (static_smtp (first_then mx1 hanging_up accepting))
            user_at_example false tt tt).
  - vm_compute. reflexivity.
  - reflexivity.
  - reflexivity.
Defined.

(** C2, as stated, fails: the first exchanger hangs up on [HELO], a second
    one is listed after it and would accept, yet the second one is never
    contacted and the answer is [True]. *)
Lemma C2_counterexample :
  validate_email unit ascii_only (Some (static_dns two_hosts))
    (static_smtp (first_then mx1 hanging_up accepting)) user_at_example false true tt
  = (tt,
     [EDiscover (Returns tt); EMxLookup (py "example.com") (Returns two_hosts);
      EConnect mx1 (Returns tt); EHelo mx1 (Raises SMTPServerDisconnected)],
     Returns true)
  /\ contacted
       [EDiscover (Returns tt); EMxLookup (py "example.com") (Returns two_hosts);
        EConnect mx1 (Returns tt); EHelo mx1 (Raises SMTPServerDisconnected)]
     = [mx1]
  /\ existsb (pystr_eqb mx2) [mx1] = false.
Proof. vm_compute. repeat split. Qed.

(** C3.  The table of the specification: with no check asked for, four
    addresses are accepted and four strings rejected, without any call to
    the outside. *)
Theorem C3_table :
  forall (W : Type) (unicode_isalnum : N -> bool)
         (DNS : option (DNS_module W)) (smtplib : SMTP_library W) (w : W),
    let validate s := validate_email W unicode_isalnum DNS smtplib s false false w in
    validate (py "user@example.com") = (w, [], Returns true)
    /\ validate (py "user.name+tag@sub.example.co") = (w, [], Returns true)
    /\ validate (py (DQ ++ "quoted user" ++ DQ ++ "@example.com")%string)
       = (w, [], Returns true)
    /\ validate (py "user@[192.168.1.1]") = (w, [], Returns true)
    /\ validate (py "plainaddress") = (w, [], Returns false)
    /\ validate (py "@missinglocal.com") = (w, [], Returns false)
    /\ validate (py "user@") = (w, [], Returns false)
    /\ validate (py "user@@example.com") = (w, [], Returns false).
Proof.
  intros W uni DNS smtplib w validate. unfold validate.
  repeat split;
    first [ apply validate_syntax_only; vm_compute; reflexivity
          | apply validate_invalid; vm_compute; reflexivity ].
Qed.

(** C4, as the code has it.  For every string that does not end with a line
    feed, the syntactic check accepts it exactly when the whole string is an
    [ADDR_SPEC]: a valid address with characters added before or after it is
    rejected unless the longer string is an [ADDR_SPEC] itself. *)
Theorem C4_full_string_match :
  forall (W : Type) (unicode_isalnum : N -> bool)
         (DNS : option (DNS_module W)) (smtplib : SMTP_library W)
         (s : pystr) (w : W),
    last s 0%N <> LF ->
    validate_email W unicode_isalnum DNS smtplib s false false w
    = (w, [], Returns (is_addr_spec unicode_isalnum s)).
Proof.
  intros W uni DNS smtplib s w Hlast.
  rewrite <- (valid_iff_addr_spec uni s Hlast).
  destruct (syntactically_valid uni s) eqn:Hs.
  - apply validate_syntax_only, Hs.
  - apply validate_invalid, Hs.
Qed.

Lemma C4_witness :
  last (py "user@example.com, other@example.com") 0%N <> LF
  /\ is_addr_spec ascii_only (py "user@example.com, other@example.com") = false
  /\ validate_email unit ascii_only None (static_smtp (fun _ => accepting))
       (py "user@example.com, other@example.com") false false tt
     = (tt, [], Returns (is_addr_spec ascii_only (py "user@example.com, other@example.com"))).
Proof.
  split; [vm_compute; discriminate|].
  split; [vm_compute; reflexivity|].
  apply (C4_full_string_match unit ascii_only None (static_smtp (fun _ => accepting))
           (py "user@example.com, other@example.com") tt).
  vm_compute. discriminate.
Defined.

(** C4, as stated, fails.  [user@example.com] is a valid address;
    [xuser@example.comx] is that address with a character added at each
    end, and it is accepted, being an address itself; so is the address with
    a blank after it.  (A line feed after the address is accepted too, and
    that string is not an [ADDR_SPEC].) *)
Lemma C4_counterexample :
  is_addr_spec ascii_only (py "user@example.com") = true
  /\ py "xuser@example.comx" = py "x" ++ py "user@example.com" ++ py "x"
  /\ validate_email unit ascii_only None (static_smtp (fun _ => accepting))
       (py "xuser@example.comx") false false tt
     = (tt, [], Returns true)
  /\ validate_email unit ascii_only None (static_smtp (fun _ => accepting))
       (py "user@example.com" ++ py " ") false false tt
     = (tt, [], Returns true)
  /\ is_addr_spec ascii_only (py "user@example.com" ++ [LF]) = false
  /\ validate_email unit ascii_only None (static_smtp (fun _ => accepting))
       (py "user@example.com" ++ [LF]) false false tt
     = (tt, [], Returns true).
Proof. vm_compute. repeat split. Qed.

(** C5.  With neither check asked for, [validate_email] answers what
    [re.match] on the anchored pattern answers, for every string, and makes
    no call to the outside: the trace is empty and the world untouched. *)
Theorem C5_syntax_only_is_pure :
  forall (W : Type) (unicode_isalnum : N -> bool)
         (DNS : option (DNS_module W)) (smtplib : SMTP_library W)
         (s : pystr) (w : W),
    exists r,
      Re.compile VALID_ADDRESS_REGEXP = Some r
      /\ validate_email W unicode_isalnum DNS smtplib s false false w
         = (w, [], Returns (Re.matches unicode_isalnum r s)).
Proof.
  intros W uni DNS smtplib s w. exists valid_address_re.
  split; [exact compile_VALID_ADDRESS_REGEXP|].
  change (Re.matches uni valid_address_re s) with (syntactically_valid uni s).
  destruct (syntactically_valid uni s) eqn:Hs.
  - apply validate_syntax_only, Hs.
  - apply validate_invalid, Hs.
Qed.

(** C6.  A valid address, a check asked for, and no [DNS] module: the plain
    [Exception] with the configuration message reaches the caller, before
    any call to the outside; no boolean is returned. *)
Theorem C6_missing_dns_raises :
  forall (W : Type) (unicode_isalnum : N -> bool) (smtplib : SMTP_library W)
         (email : pystr) (check_mx verify : bool) (w : W),
    syntactically_valid unicode_isalnum email = true ->
    check_mx || verify = true ->
    validate_email W unicode_isalnum None smtplib email check_mx verify w
    = (w, [], Raises (Exception_ CONFIG_MESSAGE)).
Proof.
  intros W uni smtplib email check_mx verify w Hs Hc.
  apply validate_no_dns; assumption.
Qed.

Lemma C6_witness :
  syntactically_valid ascii_only user_at_example = true
  /\ validate_email unit ascii_only None (static_smtp (fun _ => accepting))
       user_at_example true false tt
     = (tt, [], Raises (Exception_ CONFIG_MESSAGE)).
Proof.
  split; [vm_compute; reflexivity|].
  apply (C6_missing_dns_raises unit ascii_only (static_smtp (fun _ => accepting))
           user_at_example true false tt).
  - vm_compute. reflexivity.
  - reflexivity.
Defined.

(** C7, on the code.  The first exchanger refuses the TCP connection, a
    second one is listed and would accept: the socket's error leaves
    [validate_email], and the second exchanger is never tried. *)
Theorem C7_refused_connection_surfaces :
  validate_email unit ascii_only (Some (static_dns two_hosts))
    (static_smtp (first_then mx1 refusing accepting)) user_at_example true false tt
  = (tt,
     [EDiscover (Returns tt); EMxLookup (py "example.com") (Returns two_hosts);
      EConnect mx1 (Raises socket_error)],
     Raises socket_error).
Proof. vm_compute. reflexivity. Qed.

(** What the source hands to [DNS.mxlookup]: for every accepted address the
    slice after its first [@], wherever the domain of the address starts. *)
Lemma mxlookup_after_first_at :
  forall (W : Type) (unicode_isalnum : N -> bool)
         (dns : DNS_module W) (smtplib : SMTP_library W)
         (email : pystr) (check_mx verify : bool) (w w1 : W),
    syntactically_valid unicode_isalnum email = true ->
    check_mx || verify = true ->
    DiscoverNameServers dns w = (w1, Returns tt) ->
    exists pre post w' answer rest res,
      email = pre ++ AT :: post
      /\ ~ In AT pre
      /\ validate_email W unicode_isalnum (Some dns) smtplib email check_mx verify w
         = (w', EDiscover (Returns tt) :: EMxLookup post answer :: rest, res)
      /\ looked_up (EDiscover (Returns tt) :: EMxLookup post answer :: rest) = [post].
Proof.
  intros W uni dns smtplib email check_mx verify w w1 Hs Hc Hd.
  destruct (split_first AT email (valid_has_at uni email Hs)) as (pre & post & He & Hpre).
  exists pre, post.
  rewrite (validate_mx W uni smtplib dns email check_mx verify w Hs Hc), Hd.
  assert (Hh : hostname_of email = post)
    by (rewrite He; apply hostname_of_first_at, Hpre).
  rewrite Hh.
  destruct (mxlookup dns post w1) as [w2 [hosts|x]].
  - destruct (for_mx W smtplib email verify hosts w2) as [[w3 t] r] eqn:Hloop.
    exists w3, (Returns hosts), t, (finish r).
    repeat split; try assumption.
    cbn [looked_up]. rewrite (for_mx_no_lookup _ _ _ _ _ _ _ _ _ Hloop). reflexivity.
  - exists w2, (Raises x), [], (outer x).
    repeat split; assumption.
Qed.

(** C8, on the code.  [quoted_at], the address whose local part is the quoted
    string a@b, is accepted and has two [@].  What follows its last unescaped
    [@] is [example.com]; the name the code looks up starts inside the quoted
    string: b, the closing quote, then [@example.com].  Where [example.com]
    has exchangers that accept the address and the other name is unknown to
    the DNS, the answer is [False]. *)
Theorem C8_quoted_at_sign_looks_up_wrong_name :
  syntactically_valid ascii_only quoted_at = true
  /\ count AT quoted_at = 2
  /\ spec_after_last_unescaped_at quoted_at = Some (py "example.com")
  /\ validate_email unit ascii_only (Some (static_dns []))
       (static_smtp (fun _ => accepting)) quoted_at true false tt
     = (tt,
        [EDiscover (Returns tt);
         EMxLookup (py ("b" ++ DQ ++ "@example.com")%string) (Returns [])],
        Returns true)
  /\ pystr_eqb (py ("b" ++ DQ ++ "@example.com")%string) (py "example.com") = false
  /\ validate_email unit ascii_only (Some (dns_knowing (py "example.com") two_hosts))
       (static_smtp (fun _ => accepting)) quoted_at true true tt
     = (tt,
        [EDiscover (Returns tt);
         EMxLookup (py ("b" ++ DQ ++ "@example.com")%string) (Raises ServerError)],
        Returns false).
Proof. vm_compute. repeat split. Qed.

(** C9.  A string the pattern does not match -- the empty string and every
    string without an [@] among them -- gets [False] from the syntactic
    check: no exception, no call to the outside. *)
Theorem C9_rejected_returns_false :
  forall (W : Type) (unicode_isalnum : N -> bool)
         (DNS : option (DNS_module W)) (smtplib : SMTP_library W)
         (s : pystr) (w : W),
    syntactically_valid unicode_isalnum s = false \/ s = [] \/ ~ In AT s ->
    validate_email W unicode_isalnum DNS smtplib s false false w
    = (w, [], Returns false).
Proof.
  intros W uni DNS smtplib s w [Hs|[->|Hs]]; apply validate_invalid.
  - exact Hs.
  - apply no_at_invalid. intros [].
  - apply no_at_invalid, Hs.
Qed.

Lemma C9_witness :
  ~ In AT (py "plainaddress")
  /\ validate_email unit ascii_only None (static_smtp (fun _ => accepting))
       (py "plainaddress") false false tt
     = (tt, [], Returns false).
Proof.
  assert (Hno : ~ In AT (py "plainaddress")).
  { intros H. vm_compute in H.
    repeat (destruct H as [H|H]; [discriminate H|]). exact H. }
  split; [exact Hno|].
  apply (C9_rejected_returns_false unit ascii_only None
           (static_smtp (fun _ => accepting)) (py "plainaddress") tt).
  right. right. exact Hno.
Defined.

(** C10.  A valid address, a check asked for, name servers found, and an
    empty list of MX records: [True], after the two DNS calls and without
    any SMTP call. *)
Theorem C10_no_mx_record_is_valid :
  forall (W : Type) (unicode_isalnum : N -> bool)
         (dns : DNS_module W) (smtplib : SMTP_library W)
         (email : pystr) (check_mx verify : bool) (w w1 w2 : W),
    syntactically_valid unicode_isalnum email = true ->
    check_mx || verify = true ->
    DiscoverNameServers dns w = (w1, Returns tt) ->
    mxlookup dns (hostname_of email) w1 = (w2, Returns []) ->
    validate_email W unicode_isalnum (Some dns) smtplib email check_mx verify w
    = (w2,
       [EDiscover (Returns tt); EMxLookup (hostname_of email) (Returns [])],
       Returns true)
    /\ existsb is_smtp
         [EDiscover (Returns tt); EMxLookup (hostname_of email) (Returns [])]
       = false.
Proof.
  intros W uni dns smtplib email check_mx verify w w1 w2 Hs Hc Hd Hmx.
  split; [|reflexivity].
  rewrite (validate_mx W uni smtplib dns email check_mx verify w Hs Hc), Hd, Hmx.
  reflexivity.
Qed.

Lemma C10_witness :
  syntactically_valid ascii_only user_at_example = true
  /\ validate_email unit ascii_only (Some (static_dns []))
       (static_smtp (fun _ => accepting)) user_at_example false true tt
     = (tt,
        [EDiscover (Returns tt); EMxLookup (hostname_of user_at_example) (Returns [])],
        Returns true)
  /\ existsb is_smtp
       [EDiscover (Returns tt); EMxLookup (hostname_of user_at_example) (Returns [])]
     = false.
Proof.
  split; [vm_compute; reflexivity|].
  apply (C10_no_mx_record_is_valid unit ascii_only (static_dns [])
           (static_smtp (fun _ => accepting)) user_at_example false true tt tt tt).
  - vm_compute. reflexivity.
  - reflexivity.
  - reflexivity.
  - reflexivity.
Defined.

(* ================================================================== *)
(** * Further properties of [validate_email] *)

(** ** The runs, as relations *)

Section Courses.

Variable W : Type.
Variable unicode_isalnum : N -> bool.
Variable smtplib : SMTP_library W.

Ltac answer :=
  match goal with
  | |- context [connect ?l ?h ?w] =>
      let e := fresh "Hconnect" in destruct (connect l h w) as [? [[]|?]] eqn:e
  | |- context [helo ?l ?h ?w] =>
      let e := fresh "Hhelo" in destruct (helo l h w) as [? [?|?]] eqn:e
  | |- context [mail ?l ?h ?f ?w] =>
      let e := fresh "Hmail" in destruct (mail l h f w) as [? [[]|?]] eqn:e
  | |- context [rcpt ?l ?h ?a ?w] =>
      let e := fresh "Hrcpt" in destruct (rcpt l h a w) as [? [?|?]] eqn:e
  | |- context [(?x =? 250)%Z] =>
      let e := fresh "Hstatus" in destruct (Z.eqb_spec x 250%Z); [subst x|]
  end; cbn [negb app fst snd].

Lemma handled_as_inner (e : exn) (w : W) :
  match e with
  | SMTPServerDisconnected => ret Break
  | SMTPConnectError => ret Next
  | _ => raise e
  end w = (w, [], inner e).
Proof. destruct e; reflexivity. Qed.

(** One turn of the loop has one of the eight conversations. *)
Lemma probe_turn email verify mx w w' t r :
  probe W smtplib email verify mx w = (w', t, r) ->
  turn email verify (snd mx) t r.
Proof.
  unfold probe, try_except, bind, call, ret.
  destruct verify; cbn [negb].
  all: repeat answer.
  all: rewrite ?handled_as_inner.
  all: intros H; inversion H; subst; clear H.
  all: cbn [app]; rewrite ?app_nil_r.
  all: try (constructor; solve [reflexivity | assumption]).
  all: constructor.
Qed.

(** The loop takes one of the courses. *)
Lemma for_mx_course email verify hosts w w' t r :
  for_mx W smtplib email verify hosts w = (w', t, r) ->
  course email verify hosts t r.
Proof.
  revert w w' t r. induction hosts as [|mx rest IH]; intros w w' t r Hrun.
  - cbn in Hrun. inversion Hrun. constructor.
  - cbn [for_mx] in Hrun. unfold bind in Hrun.
    destruct (probe W smtplib email verify mx w) as [[w1 tp] rp] eqn:Hp.
    apply probe_turn in Hp.
    destruct rp as [[| |b]|x].
    + destruct (for_mx W smtplib email verify rest w1) as [[w2 t'] r'] eqn:Hrest.
      inversion Hrun; subst. eapply course_next; eauto.
    + cbn in Hrun. inversion Hrun; subst. rewrite app_nil_r.
      apply (course_left email verify mx rest tp Break Hp). discriminate.
    + cbn in Hrun. inversion Hrun; subst. rewrite app_nil_r.
      apply (course_left email verify mx rest tp (Return b) Hp). discriminate.
    + inversion Hrun; subst. apply course_raised, Hp.
Qed.

(** [validate_email] follows its outline. *)
Lemma validate_outline DNS email check_mx verify w w' tr res :
  validate_email W unicode_isalnum DNS smtplib email check_mx verify w = (w', tr, res) ->
  outline email check_mx verify (syntactically_valid unicode_isalnum email)
    (has_dns DNS) tr res.
Proof.
  intros Hrun.
  destruct (syntactically_valid unicode_isalnum email) eqn:Hs.
  2:{ rewrite validate_invalid in Hrun by assumption.
      inversion Hrun. constructor. reflexivity. }
  destruct (check_mx || verify) eqn:Hc.
  2:{ apply orb_false_elim in Hc. destruct Hc as [-> ->].
      rewrite validate_syntax_only in Hrun by assumption.
      inversion Hrun. apply outline_syntax_only; reflexivity. }
  destruct DNS as [dns|].
  2:{ rewrite validate_no_dns in Hrun by assumption.
      inversion Hrun. apply outline_no_dns; [reflexivity|assumption|reflexivity]. }
  rewrite validate_mx in Hrun by assumption.
  destruct (DiscoverNameServers dns w) as [w1 [[]|x]].
  2:{ inversion Hrun. apply outline_discover_raises; [reflexivity|assumption|reflexivity]. }
  destruct (mxlookup dns (hostname_of email) w1) as [w2 [hosts|x]].
  2:{ inversion Hrun. apply outline_mxlookup_raises; [reflexivity|assumption|reflexivity]. }
  destruct (for_mx W smtplib email verify hosts w2) as [[w3 t] r] eqn:Hloop.
  inversion Hrun. apply outline_loop; [reflexivity|assumption|reflexivity|].
  eapply for_mx_course, Hloop.
Qed.

End Courses.

(** ** What a turn of the loop does *)

Ltac each_exn := repeat match goal with x : exn |- _ => destruct x end.

Ltac as_eqb :=
  repeat match goal with H : ?s <> 250%Z |- _ => apply Z.eqb_neq in H end.

Ltac event_kind :=
  cbn;
  repeat match goal with H : (_ =? 250)%Z = _ |- _ => rewrite H end;
  reflexivity.

Ltac stops_in_turn :=
  repeat (apply stops_at_cons; [event_kind|]);
  first [apply stops_at_single | apply stops_at_nil].

Ltac free_in_turn :=
  repeat (apply free_of_cons; [event_kind|]); apply free_of_nil.

Ltac event_of_turn Hin :=
  cbn [In] in Hin;
  repeat (destruct Hin as [<-|Hin]; [|]); try contradiction.

Ltac kind_ends_turn :=
  let e := fresh "e" in
  let Hin := fresh "Hin" in
  let HP := fresh "HP" in
  intros e Hin HP; event_of_turn Hin; cbn in HP;
  first [discriminate HP | reflexivity | congruence].

Ltac ends_turn_by_cases :=
  let h := fresh "h" in
  let t := fresh "t" in
  let r := fresh "r" in
  let H := fresh "H" in
  intros h t r H; inversion H; subst; clear H; as_eqb; each_exn;
  (split; [stops_in_turn|]);
  (split; [intros Hr; try discriminate Hr; free_in_turn|]);
  kind_ends_turn.

Lemma accepted_ends_turn email verify :
  ends_turn email verify rcpt_accepted Break.
Proof. ends_turn_by_cases. Qed.

Lemma refused_ends_turn email verify :
  ends_turn email verify rcpt_refused (Return false).
Proof. ends_turn_by_cases. Qed.

Lemma connected_ends_turn email :
  ends_turn email false connected (Return true).
Proof.
  intros h t r H; inversion H; subst; clear H; try discriminate; each_exn;
  (split; [stops_in_turn|]);
  (split; [intros Hr; try discriminate Hr; free_in_turn|]);
  kind_ends_turn.
Qed.

(** Every turn contacts its exchanger, and no other. *)
Lemma turn_contacted email verify h t r :
  turn email verify h t r -> contacted t = [h].
Proof. intros H; inversion H; reflexivity. Qed.

(** Every turn starts by connecting. *)
Lemma turn_starts email verify h t r :
  turn email verify h t r -> exists a t', t = EConnect h a :: t'.
Proof. intros H; inversion H; eexists; eexists; reflexivity. Qed.

(** Every call of a turn goes to its exchanger, with an empty sender and the
    address under test. *)
Lemma turn_addressed email verify h t r :
  turn email verify h t r ->
  forall e, In e t -> smtp_host e = Some h /\ addressed email e.
Proof.
  intros H e Hin; inversion H; subst; clear H;
    event_of_turn Hin; split; reflexivity.
Qed.

(** Without [verify], a turn is a connection and nothing else. *)
Lemma turn_without_verify email h t r :
  turn email false h t r -> forall e, In e t -> handshake e = false.
Proof.
  intros H e Hin; inversion H; subst; clear H; try discriminate;
    event_of_turn Hin; reflexivity.
Qed.

(** How a turn ends tells what its last call was. *)
Lemma turn_last email verify h t r :
  turn email verify h t r ->
  exists t1 e,
    t = t1 ++ [e]
    /\ (r = Returns (Return false) -> rcpt_refused e = true)
    /\ (r = Returns Next -> skipped e = true)
    /\ (forall x, r = Raises x -> raised e = Some x).
Proof.
  intros H; inversion H; subst; clear H; as_eqb; each_exn.
  all: match goal with
       | |- exists t1 e, ?l = _ /\ _ =>
           exists (removelast l), (last l (EDiscover (Returns tt)))
       end.
  all: cbn [removelast last app].
  all: split; [reflexivity|].
  all: split; [intros Hr; try discriminate Hr; event_kind|].
  all: split; [intros Hr; try discriminate Hr; event_kind|].
  all: intros x Hr; try discriminate Hr; inversion Hr; reflexivity.
Qed.

Lemma turn_skipped email verify h t r :
  turn email verify h t r ->
  stops_at skipped t
  /\ (forall e, In e t -> skipped e = true -> r = Returns Next).
Proof.
  intros H; inversion H; subst; clear H; as_eqb; each_exn;
    (split; [stops_in_turn|]); kind_ends_turn.
Qed.

(** ** What the loop does *)

Lemma split_app (A : Type) (a b t1 t2 : list A) (e : A) :
  a ++ b = t1 ++ e :: t2 ->
  (exists m, a = t1 ++ e :: m /\ t2 = m ++ b)
  \/ (exists m, t1 = a ++ m /\ b = m ++ e :: t2).
Proof.
  revert t1. induction a as [|x a IH]; intros t1 H; simpl in H.
  - right. exists t1. split; [reflexivity | exact H].
  - destruct t1 as [|y t1]; simpl in H; inversion H; subst.
    + left. exists a. split; reflexivity.
    + destruct (IH t1 H2) as [(m & -> & ->)|(m & -> & ->)].
      * left. exists m. split; reflexivity.
      * right. exists m. split; reflexivity.
Qed.

Section Loop.

Variable email : pystr.
Variable verify : bool.

(** The first call of a loop over a non-empty list connects to its first
    record. *)
Lemma course_starts mx rest t r :
  course email verify (mx :: rest) t r ->
  exists a t', t = EConnect (snd mx) a :: t'.
Proof.
  intros H; inversion H; subst;
    match goal with
    | Ht : turn _ _ _ _ _ |- _ =>
        destruct (turn_starts _ _ _ _ _ Ht) as (? & ? & ->)
    end; eexists; eexists; reflexivity.
Qed.

(** The exchangers are contacted in the order of the list, one connection
    each, up to the one the loop stops at. *)
Lemma course_in_order hosts t r :
  course email verify hosts t r ->
  exists n, contacted t = firstn n (map snd hosts).
Proof.
  induction 1 as [|mx rest t t' r Ht _ [n IH]|mx rest t f Ht _|mx rest t e Ht].
  - exists 0. reflexivity.
  - exists (S n). rewrite contacted_app, (turn_contacted _ _ _ _ _ Ht), IH. reflexivity.
  - exists 1. rewrite (turn_contacted _ _ _ _ _ Ht). reflexivity.
  - exists 1. rewrite (turn_contacted _ _ _ _ _ Ht). reflexivity.
Qed.

(** Every call of the loop is an SMTP call, made with an empty sender and
    the address under test. *)
Lemma course_addressed hosts t r :
  course email verify hosts t r ->
  forall e, In e t -> is_smtp e = true /\ addressed email e.
Proof.
  assert (Hturn : forall h t0 r0, turn email verify h t0 r0 ->
            forall e, In e t0 -> is_smtp e = true /\ addressed email e).
  { intros h t0 r0 Ht e Hin.
    destruct (turn_addressed _ _ _ _ _ Ht e Hin) as [Hh Ha].
    split; [|exact Ha]. destruct e; try discriminate Hh; reflexivity. }
  induction 1 as [|mx rest t t' r Ht _ IH|mx rest t f Ht _|mx rest t x Ht];
    intros e Hin.
  - destruct Hin.
  - apply in_app_or in Hin. destruct Hin as [Hin|Hin]; [eapply Hturn|]; eauto.
  - eapply Hturn; eauto.
  - eapply Hturn; eauto.
Qed.

(** How the loop ends tells what its last call was. *)
Lemma course_last hosts t r :
  course email verify hosts t r ->
  (r = Returns (Some false) ->
   exists t1 e, t = t1 ++ [e] /\ rcpt_refused e = true)
  /\ (forall x, r = Raises x ->
      exists t1 e, t = t1 ++ [e] /\ raised e = Some x).
Proof.
  induction 1 as [|mx rest t t' r Ht _ [IH1 IH2]|mx rest t f Ht Hf|mx rest t x Ht].
  - split; [discriminate|]. intros x Hx. discriminate Hx.
  - split.
    + intros Hr. destruct (IH1 Hr) as (t1 & e & -> & He).
      exists (t ++ t1), e. split; [apply app_assoc | exact He].
    + intros x Hr. destruct (IH2 x Hr) as (t1 & e & -> & He).
      exists (t ++ t1), e. split; [apply app_assoc | exact He].
  - destruct (turn_last _ _ _ _ _ Ht) as (t1 & e & -> & Hfalse & _ & _).
    split; [|intros x Hx; discriminate Hx].
    intros Hr. exists t1, e. split; [reflexivity|]. apply Hfalse.
    destruct f as [| |[|]]; try discriminate Hr; reflexivity.
  - destruct (turn_last _ _ _ _ _ Ht) as (t1 & e & -> & _ & _ & Hraise).
    split; [discriminate|]. intros y Hy. inversion Hy; subst.
    exists t1, e. split; [reflexivity|]. apply Hraise. reflexivity.
Qed.

(** An event of a kind that ends its turn with [f] ends the loop. *)
Lemma course_stops (P : event -> bool) (f : flow) hosts t r :
  ends_turn email verify P f ->
  course email verify hosts t r ->
  forall t1 e t2,
    t = t1 ++ e :: t2 -> P e = true ->
    r = Returns (leaves f)
    /\ t2 = []
    /\ exists pre mx post,
         hosts = pre ++ mx :: post
         /\ contacted t = map snd pre ++ [snd mx]
         /\ smtp_host e = Some (snd mx).
Proof.
  intros HP.
  assert (Hone : forall (mx : mx_record) (rest : list mx_record) t0 r0 r1 t1 e t2,
            turn email verify (snd mx) t0 r0 ->
            (forall g, r0 = Returns g -> r1 = Returns (leaves g) /\ g <> Next) ->
            (forall x, r0 = Raises x -> r1 = Raises x) ->
            t0 = t1 ++ e :: t2 -> P e = true ->
            r1 = Returns (leaves f) /\ t2 = [] /\
            exists pre mx0 post,
              mx :: rest = pre ++ mx0 :: post
              /\ contacted t0 = map snd pre ++ [snd mx0]
              /\ smtp_host e = Some (snd mx0)).
  { intros mx rest t0 r0 r1 t1 e t2 Ht Hret Hraise Heq He.
    destruct (HP _ _ _ Ht) as (Hstop & _ & Hend).
    assert (Hin : In e t0) by (rewrite Heq; apply in_or_app; right; left; reflexivity).
    specialize (Hend e Hin He).
    split; [apply (Hret f Hend)|]. split; [eapply Hstop; eauto|].
    exists [], mx, rest. split; [reflexivity|].
    split; [apply (turn_contacted _ _ _ _ _ Ht)|].
    apply (turn_addressed _ _ _ _ _ Ht e Hin). }
  induction 1 as [|mx rest t t' r Ht Hc IH|mx rest t g Ht Hg|mx rest t x Ht];
    intros t1 e t2 Heq He.
  - destruct t1; discriminate.
  - destruct (HP _ _ _ Ht) as (_ & Hfree & _).
    destruct (split_at_first_kind P t t' t1 t2 e (Hfree eq_refl) He Heq)
      as (m & -> & Ht').
    destruct (IH _ _ _ Ht' He) as (Hr & Ht2 & pre & mx0 & post & Hh & Hct & Hhost).
    split; [exact Hr|]. split; [exact Ht2|].
    exists (mx :: pre), mx0, post. split; [rewrite Hh; reflexivity|].
    split; [|exact Hhost].
    rewrite contacted_app, (turn_contacted _ _ _ _ _ Ht), Hct. reflexivity.
  - apply (Hone mx rest t (Returns g) (Returns (leaves g)) t1 e t2 Ht);
      [ | | exact Heq | exact He].
    + intros g0 Hg0. inversion Hg0; subst. split; [reflexivity | exact Hg].
    + intros x Hx. discriminate Hx.
  - apply (Hone mx rest t (Raises x) (Raises x) t1 e t2 Ht);
      [ | | exact Heq | exact He].
    + intros g0 Hg0. discriminate Hg0.
    + intros y Hy. inversion Hy. reflexivity.
Qed.

(** After an answer that sends the loop on, the next call connects to the
    next record; after the last record the loop is over. *)
Lemma course_skips hosts t r :
  course email verify hosts t r ->
  forall t1 e t2,
    t = t1 ++ e :: t2 -> skipped e = true ->
    exists pre mx post,
      hosts = pre ++ mx :: post
      /\ smtp_host e = Some (snd mx)
      /\ contacted (t1 ++ [e]) = map snd pre ++ [snd mx]
      /\ match post with
         | [] => t2 = [] /\ r = Returns None
         | next :: _ => exists a t3, t2 = EConnect (snd next) a :: t3
         end.
Proof.
  assert (Hnot : forall h t0 r0 t1 e t2,
            turn email verify h t0 r0 -> r0 <> Returns Next ->
            t0 = t1 ++ e :: t2 -> skipped e = true -> False).
  { intros h t0 r0 t1 e t2 Ht Hr Heq He.
    destruct (turn_skipped _ _ _ _ _ Ht) as (_ & Hend).
    apply Hr, (Hend e); [|exact He].
    rewrite Heq. apply in_or_app. right. left. reflexivity. }
  induction 1 as [|mx rest t t' r Ht Hc IH|mx rest t g Ht Hg|mx rest t x Ht];
    intros t1 e t2 Heq He.
  - destruct t1; discriminate.
  - destruct (split_app _ _ _ _ _ _ Heq) as [(m & Hm & ->)|(m & -> & Ht')].
    + destruct (turn_skipped _ _ _ _ _ Ht) as (Hstop & _).
      assert (m = []) by (eapply Hstop; eauto). subst m. cbn [app].
      exists [], mx, rest. split; [reflexivity|].
      assert (Hin : In e t) by (rewrite Hm; apply in_or_app; right; left; reflexivity).
      split; [apply (turn_addressed _ _ _ _ _ Ht e Hin)|].
      split.
      * replace (t1 ++ [e]) with t by (rewrite Hm; reflexivity).
        apply (turn_contacted _ _ _ _ _ Ht).
      * destruct rest as [|next rest'].
        -- inversion Hc; subst. split; reflexivity.
        -- apply (course_starts _ _ _ _ Hc).
    + destruct (IH _ _ _ Ht' He) as (pre & mx0 & post & Hh & Hhost & Hct & Hpost).
      exists (mx :: pre), mx0, post. split; [rewrite Hh; reflexivity|].
      split; [exact Hhost|]. split; [|exact Hpost].
      rewrite <- app_assoc, contacted_app, (turn_contacted _ _ _ _ _ Ht), Hct.
      reflexivity.
  - exfalso. eapply (Hnot _ _ _ _ _ _ Ht); eauto.
    intros Hx. inversion Hx. contradiction.
  - exfalso. eapply (Hnot _ _ _ _ _ _ Ht); eauto. discriminate.
Qed.

End Loop.

(** Without [verify] the loop makes no call of the handshake. *)
Lemma course_without_verify email hosts t r :
  course email false hosts t r ->
  forall e, In e t -> handshake e = false.
Proof.
  induction 1 as [|mx rest t t' r Ht _ IH|mx rest t f Ht _|mx rest t x Ht];
    intros e Hin.
  - destruct Hin.
  - apply in_app_or in Hin.
    destruct Hin as [Hin|Hin]; [eapply turn_without_verify|]; eauto.
  - eapply turn_without_verify; eauto.
  - eapply turn_without_verify; eauto.
Qed.

(** ** Properties of the runs *)

Lemma outline_smtp_event email check_mx verify valid dns tr res
      (t1 : trace) (e : event) (t2 : trace) :
  outline email check_mx verify valid dns tr res ->
  tr = t1 ++ e :: t2 ->
  is_smtp e = true ->
  exists hosts t r t1',
    course email verify hosts t r
    /\ tr = EDiscover (Returns tt) :: EMxLookup (hostname_of email) (Returns hosts) :: t
    /\ t = t1' ++ e :: t2
    /\ t1 = EDiscover (Returns tt) :: EMxLookup (hostname_of email) (Returns hosts) :: t1'
    /\ res = finish r.
Proof.
  intros Ho Htr He.
  destruct Ho as [Hv|Hv Hc Hf|Hv Hc Hd|x Hv Hc Hd|x Hv Hc Hd|hosts t r Hv Hc Hd Hcourse].
  - destruct t1; discriminate Htr.
  - destruct t1; discriminate Htr.
  - destruct t1; discriminate Htr.
  - destruct t1 as [|? [|? ?]]; inversion Htr; subst; discriminate He.
  - destruct t1 as [|? [|? [|? ?]]]; inversion Htr; subst; discriminate He.
  - destruct t1 as [|a [|b t1]]; inversion Htr; subst; try discriminate He.
    exists hosts, (t1 ++ e :: t2), r, t1. repeat split; assumption.
Qed.

Lemma run_is_triple {W : Type} (run : W * trace * outcome bool) :
  run = (fst (fst run), calls run, result run).
Proof. destruct run as [[w t] r]. reflexivity. Qed.

(** X1.  The exchangers are contacted in the order [DNS.mxlookup] listed
    them, each at most once: the hosts contacted are the first [n] hosts of
    the list, for some [n]. *)
Theorem X1_hosts_contacted_in_order :
  forall (W : Type) (unicode_isalnum : N -> bool)
         (DNS : option (DNS_module W)) (smtplib : SMTP_library W)
         (email : pystr) (check_mx verify : bool) (w w' : W) (tr : trace)
         (res : outcome bool),
    validate_email W unicode_isalnum DNS smtplib email check_mx verify w = (w', tr, res) ->
    contacted tr = []
    \/ exists hosts n,
         In (EMxLookup (hostname_of email) (Returns hosts)) tr
         /\ contacted tr = firstn n (map snd hosts).
Proof.
  intros W uni DNS smtplib email check_mx verify w w' tr res Hrun.
  apply validate_outline in Hrun.
  destruct Hrun as [| | | | |hosts t r _ _ _ Hcourse]; try (left; reflexivity).
  right. destruct (course_in_order _ _ _ _ _ Hcourse) as [n Hn].
  exists hosts, n. split; [right; left; reflexivity|]. exact Hn.
Qed.

Lemma X1_witness :
  contacted (calls (static_run two_hosts (first_then mx1 unwelcoming accepting)
                      user_at_example false true)) = []
  \/ exists hosts n,
       In (EMxLookup (hostname_of user_at_example) (Returns hosts))
          (calls (static_run two_hosts (first_then mx1 unwelcoming accepting)
                    user_at_example false true))
       /\ contacted (calls (static_run two_hosts (first_then mx1 unwelcoming accepting)
                              user_at_example false true))
          = firstn n (map snd hosts).
Proof.
  eapply (X1_hosts_contacted_in_order unit ascii_only (Some (static_dns two_hosts))
            (static_smtp (first_then mx1 unwelcoming accepting))
            user_at_example false true tt).
  apply run_is_triple.
Defined.

(** X2.  A recipient check answered with 250 ends the probe with [True]:
    it is the last call made, and the hosts contacted are the records up to
    the one that accepted. *)
Theorem X2_accepted_recipient_ends_probe :
  forall (W : Type) (unicode_isalnum : N -> bool)
         (DNS : option (DNS_module W)) (smtplib : SMTP_library W)
         (email : pystr) (check_mx verify : bool) (w w' : W) (tr : trace)
         (res : outcome bool) (t1 t2 : trace) (host recipient : pystr),
    validate_email W unicode_isalnum DNS smtplib email check_mx verify w = (w', tr, res) ->
    tr = t1 ++ ERcpt host recipient (Returns 250%Z) :: t2 ->
    res = Returns true
    /\ t2 = []
    /\ exists hosts pre priority post,
         In (EMxLookup (hostname_of email) (Returns hosts)) tr
         /\ hosts = pre ++ (priority, host) :: post
         /\ contacted tr = map snd pre ++ [host].
Proof.
  intros W uni DNS smtplib email check_mx verify w w' tr res t1 t2 host rc Hrun Htr.
  apply validate_outline in Hrun.
  destruct (outline_smtp_event _ _ _ _ _ _ _ _ _ _ Hrun Htr eq_refl)
    as (hosts & t & r & t1' & Hcourse & Htr' & Ht & _ & Hres).
  destruct (course_stops email verify rcpt_accepted Break hosts t r
              (accepted_ends_turn email verify) Hcourse _ _ _ Ht eq_refl)
    as (Hr & Ht2 & pre & [p h] & post & Hh & Hct & Hhost).
  cbn in Hhost. inversion Hhost; subst h.
  split; [rewrite Hres, Hr; reflexivity|]. split; [exact Ht2|].
  exists hosts, pre, p, post.
  split; [rewrite Htr'; right; left; reflexivity|].
  split; [exact Hh|].
  rewrite Htr'. cbn [contacted]. exact Hct.
Qed.

Lemma X2_witness :
  result (static_run two_hosts (first_then mx1 unwelcoming accepting)
            user_at_example false true) = Returns true
  /\ @nil event = []
  /\ exists hosts pre priority post,
       In (EMxLookup (hostname_of user_at_example) (Returns hosts))
          (calls (static_run two_hosts (first_then mx1 unwelcoming accepting)
                    user_at_example false true))
       /\ hosts = pre ++ (priority, mx2) :: post
       /\ contacted (calls (static_run two_hosts (first_then mx1 unwelcoming accepting)
                              user_at_example false true))
          = map snd pre ++ [mx2].
Proof.
  eapply (X2_accepted_recipient_ends_probe unit ascii_only (Some (static_dns two_hosts))
            (static_smtp (first_then mx1 unwelcoming accepting))
            user_at_example false true tt tt _ _
            [EDiscover (Returns tt); EMxLookup (py "example.com") (Returns two_hosts);
             EConnect mx1 (Returns tt); EHelo mx1 (Returns 502%Z);
             EConnect mx2 (Returns tt); EHelo mx2 (Returns 250%Z);
             EMail mx2 [] (Returns tt)]
            [] mx2 user_at_example).
  - apply run_is_triple.
  - vm_compute. reflexivity.
Defined.

(** X3.  Without [verify], an opened connection is enough: it ends the run
    with [True], it is the last call made, and the hosts contacted are the
    records up to the one that answered. *)
Theorem X3_connection_suffices_without_verify :
  forall (W : Type) (unicode_isalnum : N -> bool)
         (DNS : option (DNS_module W)) (smtplib : SMTP_library W)
         (email : pystr) (check_mx : bool) (w w' : W) (tr : trace)
         (res : outcome bool) (t1 t2 : trace) (host : pystr),
    validate_email W unicode_isalnum DNS smtplib email check_mx false w = (w', tr, res) ->
    tr = t1 ++ EConnect host (Returns tt) :: t2 ->
    res = Returns true
    /\ t2 = []
    /\ exists hosts pre priority post,
         In (EMxLookup (hostname_of email) (Returns hosts)) tr
         /\ hosts = pre ++ (priority, host) :: post
         /\ contacted tr = map snd pre ++ [host].
Proof.
  intros W uni DNS smtplib email check_mx w w' tr res t1 t2 host Hrun Htr.
  apply validate_outline in Hrun.
  destruct (outline_smtp_event _ _ _ _ _ _ _ _ _ _ Hrun Htr eq_refl)
    as (hosts & t & r & t1' & Hcourse & Htr' & Ht & _ & Hres).
  destruct (course_stops email false connected (Return true) hosts t r
              (connected_ends_turn email) Hcourse _ _ _ Ht eq_refl)
    as (Hr & Ht2 & pre & [p h] & post & Hh & Hct & Hhost).
  cbn in Hhost. inversion Hhost; subst h.
  split; [rewrite Hres, Hr; reflexivity|]. split; [exact Ht2|].
  exists hosts, pre, p, post.
  split; [rewrite Htr'; right; left; reflexivity|].
  split; [exact Hh|].
  rewrite Htr'. cbn [contacted]. exact Hct.
Qed.

Lemma X3_witness :
  result (static_run two_hosts (first_then mx1 rejecting rejecting)
            user_at_example true false) = Returns true
  /\ @nil event = []
  /\ exists hosts pre priority post,
       In (EMxLookup (hostname_of user_at_example) (Returns hosts))
          (calls (static_run two_hosts (first_then mx1 rejecting rejecting)
                    user_at_example true false))
       /\ hosts = pre ++ (priority, mx1) :: post
       /\ contacted (calls (static_run two_hosts (first_then mx1 rejecting rejecting)
                              user_at_example true false))
          = map snd pre ++ [mx1].
Proof.
  eapply (X3_connection_suffices_without_verify unit ascii_only
            (Some (static_dns two_hosts))
            (static_smtp (first_then mx1 rejecting rejecting))
            user_at_example true tt tt _ _
            [EDiscover (Returns tt); EMxLookup (py "example.com") (Returns two_hosts)]
            [] mx1).
  - apply run_is_triple.
  - vm_compute. reflexivity.
Defined.

(** X4.  Without [verify], no [HELO], [MAIL FROM] or [RCPT TO] is ever
    sent. *)
Theorem X4_no_handshake_without_verify :
  forall (W : Type) (unicode_isalnum : N -> bool)
         (DNS : option (DNS_module W)) (smtplib : SMTP_library W)
         (email : pystr) (check_mx : bool) (w w' : W) (tr : trace)
         (res : outcome bool),
    validate_email W unicode_isalnum DNS smtplib email check_mx false w = (w', tr, res) ->
    existsb handshake tr = false.
Proof.
  intros W uni DNS smtplib email check_mx w w' tr res Hrun.
  apply validate_outline in Hrun.
  destruct Hrun as [| | | | |hosts t r _ _ _ Hcourse]; try reflexivity.
  cbn [existsb handshake orb].
  assert (Hall : forall e, In e t -> handshake e = false)
    by exact (course_without_verify _ _ _ _ Hcourse).
  clear Hcourse. induction t as [|e t IH]; [reflexivity|].
  cbn [existsb]. rewrite (Hall e) by (left; reflexivity).
  apply IH. intros e' He'. apply Hall. right. exact He'.
Qed.

Lemma X4_witness :
  existsb handshake
    (calls (static_run two_hosts (first_then mx1 rejecting rejecting)
              user_at_example true false)) = false.
Proof.
  eapply (X4_no_handshake_without_verify unit ascii_only
            (Some (static_dns two_hosts))
            (static_smtp (first_then mx1 rejecting rejecting))
            user_at_example true tt).
  apply run_is_triple.
Defined.

(** X5.  A greeting answered with a code other than 250, or an
    [SMTPConnectError], sends the loop on: the next call connects to the next
    MX record; after the last record the run is over and the result is
    [True]. *)
Theorem X5_skipped_host_goes_to_next :
  forall (W : Type) (unicode_isalnum : N -> bool)
         (DNS : option (DNS_module W)) (smtplib : SMTP_library W)
         (email : pystr) (check_mx verify : bool) (w w' : W) (tr : trace)
         (res : outcome bool) (t1 t2 : trace) (e : event),
    validate_email W unicode_isalnum DNS smtplib email check_mx verify w = (w', tr, res) ->
    tr = t1 ++ e :: t2 ->
    skipped e = true ->
    exists hosts pre mx post,
      In (EMxLookup (hostname_of email) (Returns hosts)) tr
      /\ hosts = pre ++ mx :: post
      /\ smtp_host e = Some (snd mx)
      /\ contacted (t1 ++ [e]) = map snd pre ++ [snd mx]
      /\ match post with
         | [] => t2 = [] /\ res = Returns true
         | next :: _ => exists a t3, t2 = EConnect (snd next) a :: t3
         end.
Proof.
  intros W uni DNS smtplib email check_mx verify w w' tr res t1 t2 e Hrun Htr He.
  apply validate_outline in Hrun.
  assert (Hsmtp : is_smtp e = true)
    by (destruct e; first [reflexivity | discriminate He]).
  destruct (outline_smtp_event _ _ _ _ _ _ _ _ _ _ Hrun Htr Hsmtp)
    as (hosts & t & r & t1' & Hcourse & Htr' & Ht & Ht1 & Hres).
  destruct (course_skips email verify hosts t r Hcourse _ _ _ Ht He)
    as (pre & mx & post & Hh & Hhost & Hct & Hpost).
  exists hosts, pre, mx, post.
  split; [rewrite Htr'; right; left; reflexivity|].
  split; [exact Hh|]. split; [exact Hhost|].
  split; [rewrite Ht1; cbn [app contacted]; exact Hct|].
  destruct post as [|next post']; [|exact Hpost].
  destruct Hpost as [-> ->]. split; [reflexivity | exact Hres].
Qed.

Lemma X5_witness :
  exists hosts pre mx post,
    In (EMxLookup (hostname_of user_at_example) (Returns hosts))
       (calls (static_run two_hosts (first_then mx1 unwelcoming accepting)
                 user_at_example false true))
    /\ hosts = pre ++ mx :: post
    /\ smtp_host (EHelo mx1 (Returns 502%Z)) = Some (snd mx)
    /\ contacted
         ([EDiscover (Returns tt); EMxLookup (py "example.com") (Returns two_hosts);
           EConnect mx1 (Returns tt)] ++ [EHelo mx1 (Returns 502%Z)])
       = map snd pre ++ [snd mx]
    /\ match post with
       | [] =>
           [EConnect mx2 (Returns tt); EHelo mx2 (Returns 250%Z);
            EMail mx2 [] (Returns tt); ERcpt mx2 user_at_example (Returns 250%Z)] = []
           /\ result (static_run two_hosts (first_then mx1 unwelcoming accepting)
                        user_at_example false true) = Returns true
       | next :: _ =>
           exists a t3,
             [EConnect mx2 (Returns tt); EHelo mx2 (Returns 250%Z);
              EMail mx2 [] (Returns tt); ERcpt mx2 user_at_example (Returns 250%Z)]
             = EConnect (snd next) a :: t3
       end.
Proof.
  eapply (X5_skipped_host_goes_to_next unit ascii_only (Some (static_dns two_hosts))
            (static_smtp (first_then mx1 unwelcoming accepting))
            user_at_example false true tt tt).
  - apply run_is_triple.
  - vm_compute. reflexivity.
  - reflexivity.
Defined.

(** X6.  An exception of a DNS call ends the run at once, before any SMTP
    call: a [ServerError] (or [AssertionError]) becomes the answer [False],
    any other exception reaches the caller. *)
Theorem X6_dns_exception_ends_run :
  forall (W : Type) (unicode_isalnum : N -> bool)
         (DNS : option (DNS_module W)) (smtplib : SMTP_library W)
         (email : pystr) (check_mx verify : bool) (w w' : W) (tr : trace)
         (res : outcome bool) (t1 t2 : trace) (e : event) (x : exn),
    validate_email W unicode_isalnum DNS smtplib email check_mx verify w = (w', tr, res) ->
    tr = t1 ++ e :: t2 ->
    is_smtp e = false ->
    raised e = Some x ->
    t2 = []
    /\ contacted tr = []
    /\ res = (if caught_outside x then Returns false else Raises x).
Proof.
  intros W uni DNS smtplib email check_mx verify w w' tr res t1 t2 e x Hrun Htr He Hx.
  apply validate_outline in Hrun.
  assert (Houter : forall y, outer y = if caught_outside y then Returns false else Raises y)
    by (intros y; destruct y; reflexivity).
  destruct Hrun as [| | |y _ _ _|y _ _ _|hosts t r _ _ _ Hcourse].
  - destruct t1; discriminate Htr.
  - destruct t1; discriminate Htr.
  - destruct t1; discriminate Htr.
  - destruct t1 as [|? [|? ?]]; inversion Htr; subst.
    cbn in Hx. inversion Hx; subst. repeat split. apply Houter.
  - destruct t1 as [|? [|? [|? ?]]]; inversion Htr; subst.
    + discriminate Hx.
    + cbn in Hx. inversion Hx; subst. repeat split. apply Houter.
  - exfalso. destruct t1 as [|a [|b t1]]; inversion Htr; subst; try discriminate Hx.
    assert (Hin : In e (t1 ++ e :: t2)) by (apply in_or_app; right; left; reflexivity).
    destruct (course_addressed _ _ _ _ _ Hcourse e Hin) as [Hs _].
    rewrite Hs in He. discriminate He.
Qed.

Lemma X6_witness :
  @nil event = []
  /\ contacted
       (calls (validate_email unit ascii_only (Some (failing_dns ServerError))
                 (static_smtp (fun _ => accepting)) user_at_example true true tt))
     = []
  /\ result (validate_email unit ascii_only (Some (failing_dns ServerError))
               (static_smtp (fun _ => accepting)) user_at_example true true tt)
     = (if caught_outside ServerError then Returns false else Raises ServerError).
Proof.
  eapply (X6_dns_exception_ends_run unit ascii_only (Some (failing_dns ServerError))
            (static_smtp (fun _ => accepting)) user_at_example true true tt tt _ _
            [EDiscover (Returns tt)] []
            (EMxLookup (py "example.com") (Raises ServerError)) ServerError).
  - apply run_is_triple.
  - vm_compute. reflexivity.
  - reflexivity.
  - reflexivity.
Defined.

(** X7.  A string the pattern rejects gets [False] whatever the flags, with
    or without a [DNS] module, and no call is made for it. *)
Theorem X7_invalid_address_makes_no_call :
  forall (W : Type) (unicode_isalnum : N -> bool)
         (DNS : option (DNS_module W)) (smtplib : SMTP_library W)
         (email : pystr) (check_mx verify : bool) (w : W),
    syntactically_valid unicode_isalnum email = false ->
    validate_email W unicode_isalnum DNS smtplib email check_mx verify w
    = (w, [], Returns false).
Proof.
  intros W uni DNS smtplib email check_mx verify w Hs.
  apply validate_invalid, Hs.
Qed.

Lemma X7_witness :
  validate_email unit ascii_only None (static_smtp (fun _ => accepting))
    (py "user@") true true tt
  = (tt, [], Returns false).
Proof.
  apply (X7_invalid_address_makes_no_call unit ascii_only None
           (static_smtp (fun _ => accepting)) (py "user@") true true tt).
  vm_compute. reflexivity.
Defined.

(** X8.  An exception that reaches the caller is never an [AssertionError]
    or a [ServerError]; it is either the configuration [Exception], raised
    before any call when there is no [DNS] module, or the exception of the
    last call made. *)
Theorem X8_exceptions_that_escape :
  forall (W : Type) (unicode_isalnum : N -> bool)
         (DNS : option (DNS_module W)) (smtplib : SMTP_library W)
         (email : pystr) (check_mx verify : bool) (w w' : W) (tr : trace) (x : exn),
    validate_email W unicode_isalnum DNS smtplib email check_mx verify w
    = (w', tr, Raises x) ->
    caught_outside x = false
    /\ ((x = Exception_ CONFIG_MESSAGE /\ tr = [] /\ DNS = None)
        \/ exists t1 e, tr = t1 ++ [e] /\ raised e = Some x).
Proof.
  intros W uni DNS smtplib email check_mx verify w w' tr x Hrun.
  apply validate_outline in Hrun.
  remember (Raises x) as res eqn:Hres.
  assert (Houter : forall y, outer y = Raises x -> y = x /\ caught_outside x = false).
  { intros y Hy. destruct y; cbn in Hy; try discriminate Hy;
      inversion Hy; subst; split; reflexivity. }
  destruct Hrun as [| |_ _ Hd|y _ _ _|y _ _ _|hosts t r _ _ _ Hcourse];
    try discriminate Hres.
  - inversion Hres; subst. split; [reflexivity|]. left.
    repeat split. destruct DNS; [discriminate Hd | reflexivity].
  - destruct (Houter y Hres) as [-> Hc]. split; [exact Hc|].
    right. exists [], (EDiscover (Raises x)). split; reflexivity.
  - destruct (Houter y Hres) as [-> Hc]. split; [exact Hc|].
    right. exists [EDiscover (Returns tt)], (EMxLookup (hostname_of email) (Raises x)).
    split; reflexivity.
  - destruct r as [[b|]|y]; cbn in Hres; try discriminate Hres.
    destruct (Houter y Hres) as [-> Hc]. split; [exact Hc|].
    right. destruct (course_last _ _ _ _ _ Hcourse) as [_ Hlast].
    destruct (Hlast x eq_refl) as (t1 & e & -> & He).
    exists (EDiscover (Returns tt) :: EMxLookup (hostname_of email) (Returns hosts) :: t1), e.
    split; [reflexivity | exact He].
Qed.

Lemma X8_witness :
  caught_outside socket_error = false
  /\ ((socket_error = Exception_ CONFIG_MESSAGE
       /\ [EDiscover (Returns tt); EMxLookup (py "example.com") (Returns two_hosts);
           EConnect mx1 (Raises socket_error)] = []
       /\ Some (static_dns two_hosts) = None)
      \/ exists t1 e,
           [EDiscover (Returns tt); EMxLookup (py "example.com") (Returns two_hosts);
            EConnect mx1 (Raises socket_error)] = t1 ++ [e]
           /\ raised e = Some socket_error).
Proof.
  eapply (X8_exceptions_that_escape unit ascii_only (Some (static_dns two_hosts))
            (static_smtp (first_then mx1 refusing accepting))
            user_at_example true false tt tt).
  vm_compute. reflexivity.
Defined.

(** X9.  [False] is returned only for a string the pattern rejects, or when
    the last call made was a recipient check answered with a code other than
    250, or a call that raised [ServerError] or [AssertionError].  An
    exchanger that cannot be reached, or that hangs up, never makes the
    answer [False]. *)
Theorem X9_false_only_when :
  forall (W : Type) (unicode_isalnum : N -> bool)
         (DNS : option (DNS_module W)) (smtplib : SMTP_library W)
         (email : pystr) (check_mx verify : bool) (w w' : W) (tr : trace),
    validate_email W unicode_isalnum DNS smtplib email check_mx verify w
    = (w', tr, Returns false) ->
    (syntactically_valid unicode_isalnum email = false /\ tr = [])
    \/ exists t1 e,
         tr = t1 ++ [e]
         /\ (rcpt_refused e = true
             \/ exists x, raised e = Some x /\ caught_outside x = true).
Proof.
  intros W uni DNS smtplib email check_mx verify w w' tr Hrun.
  apply validate_outline in Hrun.
  remember (Returns false) as res eqn:Hres.
  assert (Houter : forall y, outer y = Returns false -> caught_outside y = true).
  { intros y Hy. destruct y; cbn in Hy; try discriminate Hy; reflexivity. }
  destruct Hrun as [Hv| | |y _ _ _|y _ _ _|hosts t r _ _ _ Hcourse];
    try discriminate Hres.
  - left. split; [exact Hv | reflexivity].
  - right. exists [], (EDiscover (Raises y)). split; [reflexivity|].
    right. exists y. split; [reflexivity | apply Houter; exact Hres].
  - right. exists [EDiscover (Returns tt)], (EMxLookup (hostname_of email) (Raises y)).
    split; [reflexivity|].
    right. exists y. split; [reflexivity | apply Houter; exact Hres].
  - right. destruct (course_last _ _ _ _ _ Hcourse) as [Hfalse Hlast].
    destruct r as [[[|]|]|y]; cbn in Hres; try discriminate Hres.
    + destruct (Hfalse eq_refl) as (t1 & e & -> & He).
      exists (EDiscover (Returns tt) :: EMxLookup (hostname_of email) (Returns hosts) :: t1), e.
      split; [reflexivity|]. left. exact He.
    + destruct (Hlast y eq_refl) as (t1 & e & -> & He).
      exists (EDiscover (Returns tt) :: EMxLookup (hostname_of email) (Returns hosts) :: t1), e.
      split; [reflexivity|]. right. exists y.
      split; [exact He | apply Houter; exact Hres].
Qed.

Lemma X9_witness :
  (syntactically_valid ascii_only user_at_example = false
   /\ [EDiscover (Returns tt); EMxLookup (py "example.com") (Returns two_hosts);
       EConnect mx1 (Returns tt); EHelo mx1 (Returns 250%Z);
       EMail mx1 [] (Returns tt); ERcpt mx1 user_at_example (Returns 550%Z)] = [])
  \/ exists t1 e,
       [EDiscover (Returns tt); EMxLookup (py "example.com") (Returns two_hosts);
        EConnect mx1 (Returns tt); EHelo mx1 (Returns 250%Z);
        EMail mx1 [] (Returns tt); ERcpt mx1 user_at_example (Returns 550%Z)]
       = t1 ++ [e]
       /\ (rcpt_refused e = true
           \/ exists x, raised e = Some x /\ caught_outside x = true).
Proof.
  eapply (X9_false_only_when unit ascii_only (Some (static_dns two_hosts))
            (static_smtp (first_then mx1 rejecting accepting))
            user_at_example false true tt tt).
  vm_compute. reflexivity.
Defined.

(** X10.  Every call is made with what the source passes: the name looked
    up is the slice after the first [@], every [MAIL FROM] has the empty
    sender, every [RCPT TO] names the address under test. *)
Theorem X10_calls_are_addressed :
  forall (W : Type) (unicode_isalnum : N -> bool)
         (DNS : option (DNS_module W)) (smtplib : SMTP_library W)
         (email : pystr) (check_mx verify : bool) (w w' : W) (tr : trace)
         (res : outcome bool) (e : event),
    validate_email W unicode_isalnum DNS smtplib email check_mx verify w = (w', tr, res) ->
    In e tr ->
    addressed email e.
Proof.
  intros W uni DNS smtplib email check_mx verify w w' tr res e Hrun Hin.
  apply validate_outline in Hrun.
  destruct Hrun as [| | |y _ _ _|y _ _ _|hosts t r _ _ _ Hcourse];
    cbn [In] in Hin.
  - destruct Hin.
  - destruct Hin.
  - destruct Hin.
  - destruct Hin as [<-|[]]. exact I.
  - destruct Hin as [<-|[<-|[]]]; [exact I | reflexivity].
  - destruct Hin as [<-|[<-|Hin]]; [exact I | reflexivity |].
    apply (course_addressed _ _ _ _ _ Hcourse e Hin).
Qed.

Lemma X10_witness :
  addressed user_at_example (ERcpt mx1 user_at_example (Returns 550%Z)).
Proof.
  eapply (X10_calls_are_addressed unit ascii_only (Some (static_dns two_hosts))
            (static_smtp (first_then mx1 rejecting accepting))
            user_at_example false true tt tt).
  - apply run_is_triple.
  - vm_compute. do 5 right. left. reflexivity.
Defined.

(* ================================================================== *)
(** * Further properties of the pattern *)

(** ** The matcher decides what the pattern denotes *)

Section Denotation.

Variable unicode_isalnum : N -> bool.

Local Abbreviation accepts := (Re.accepts unicode_isalnum).
Local Abbreviation denotes' := (denotes unicode_isalnum).

Local Abbreviation sound := (sound_for unicode_isalnum).

Lemma iterate_sound r step :
  sound r step -> forall fuel, sound (Re.Star r) (Re.iterate step fuel).
Proof.
  intros Hstep fuel. induction fuel as [|f IH]; intros s k H; simpl in H.
  - destruct (k s) eqn:Hk; [|discriminate].
    exists [], s. repeat split; [constructor | exact Hk].
  - destruct (k s) eqn:Hk.
    + exists [], s. repeat split; [constructor | exact Hk].
    + apply Hstep in H. destruct H as (p1 & s1 & -> & Hp1 & H).
      destruct (List.length s1 <? List.length (p1 ++ s1))%nat; [|discriminate].
      apply IH in H. destruct H as (p2 & s2 & -> & Hp2 & H).
      exists (p1 ++ p2), s2. rewrite <- app_assoc.
      repeat split; [constructor; assumption | exact H].
Qed.

Lemma accepts_sound total r :
  anchor_free r = true -> sound r (accepts total r).
Proof.
  induction r; intros Haf s k H; cbn [Re.accepts] in H; cbn [anchor_free] in Haf;
    try discriminate Haf.
  - exists [], s. repeat split; [constructor | exact H].
  - destruct s as [|x s]; [discriminate|].
    destruct (N.eqb_spec x c) as [->|]; [|discriminate].
    exists [c], s. repeat split; [constructor | exact H].
  - destruct s as [|x s]; [discriminate|].
    destruct (N.eqb_spec x LF); [discriminate|].
    exists [x], s. repeat split; [constructor; assumption | exact H].
  - destruct s as [|x s]; [discriminate|].
    destruct (Re.in_class unicode_isalnum x items) eqn:Hc; [|discriminate].
    exists [x], s. repeat split; [constructor; assumption | exact H].
  - apply andb_prop in Haf. destruct Haf as [Ha1 Ha2].
    apply (IHr1 Ha1) in H. destruct H as (p1 & s1 & -> & Hp1 & H).
    apply (IHr2 Ha2) in H. destruct H as (p2 & s2 & -> & Hp2 & H).
    exists (p1 ++ p2), s2. rewrite <- app_assoc.
    repeat split; [constructor; assumption | exact H].
  - apply andb_prop in Haf. destruct Haf as [Ha1 Ha2].
    destruct (accepts total r1 s k) eqn:H1.
    + apply (IHr1 Ha1) in H1. destruct H1 as (p & s' & -> & Hp & Hk).
      exists p, s'. repeat split; [apply denotes_alt_left; assumption | exact Hk].
    + apply (IHr2 Ha2) in H. destruct H as (p & s' & -> & Hp & Hk).
      exists p, s'. repeat split; [apply denotes_alt_right; assumption | exact Hk].
  - exact (iterate_sound _ _ (IHr Haf) _ _ _ H).
  - apply (IHr Haf) in H. destruct H as (p1 & s1 & -> & Hp1 & H).
    apply (iterate_sound _ _ (IHr Haf)) in H. destruct H as (p2 & s2 & -> & Hp2 & H).
    exists (p1 ++ p2), s2. rewrite <- app_assoc.
    repeat split; [constructor; assumption | exact H].
  - destruct (accepts total r s k) eqn:H1.
    + apply (IHr Haf) in H1. destruct H1 as (p & s' & -> & Hp & Hk).
      exists p, s'. repeat split; [apply denotes_opt_some; assumption | exact Hk].
    + exists [], s. repeat split; [constructor | exact H].
Qed.

(** The fuel of a repetition does not matter once it exceeds the length of
    the subject. *)
Lemma iterate_fuel step :
  local step ->
  forall f f' s k,
    (List.length s < f)%nat -> (List.length s < f')%nat ->
    Re.iterate step f s k = Re.iterate step f' s k.
Proof.
  intros Hstep f. induction f as [|f IH]; intros f' s k Hf Hf'; [lia|].
  destruct f' as [|f']; [lia|]. simpl.
  destruct (k s); [reflexivity|].
  apply Hstep. intros s1 _.
  destruct (List.length s1 <? List.length s)%nat eqn:Hlt; [|reflexivity].
  apply Nat.ltb_lt in Hlt. apply IH; lia.
Qed.

Lemma iterate_unfold step f s k :
  Re.iterate step (S f) s k
  = if k s then true
    else step s (fun s' => if (List.length s' <? List.length s)%nat
                           then Re.iterate step f s' k else false).
Proof. reflexivity. Qed.

(** Whatever the pattern denotes, the matcher finds. *)
Lemma accepts_complete total r p :
  denotes' r p ->
  forall s' k, k s' = true -> accepts total r (p ++ s') k = true.
Proof.
  induction 1 as [|c|x Hx|items x Hx|r1 r2 p1 p2 _ IH1 _ IH2|r1 r2 p _ IH|r1 r2 p _ IH
                 |r|r p1 p2 _ IH1 _ IH2|r p1 p2 _ IH1 _ IH2|r|r p _ IH];
    intros s' k Hk; cbn [Re.accepts app].
  - exact Hk.
  - rewrite N.eqb_refl. exact Hk.
  - destruct (N.eqb_spec x LF); [contradiction | exact Hk].
  - rewrite Hx. exact Hk.
  - rewrite <- app_assoc. apply IH1. apply IH2. exact Hk.
  - rewrite (IH s' k Hk). reflexivity.
  - rewrite (IH s' k Hk). destruct (accepts total r1 (p ++ s') k); reflexivity.
  - simpl. rewrite Hk. reflexivity.
  - specialize (IH2 s' k Hk). cbn [Re.accepts] in IH2.
    destruct p1 as [|x p1]; [exact IH2|].
    rewrite <- app_assoc. remember (p2 ++ s') as rest eqn:Hrest.
    rewrite iterate_unfold.
    destruct (k ((x :: p1) ++ rest)); [reflexivity|].
    apply IH1.
    assert (Hlt : (List.length rest < List.length ((x :: p1) ++ rest))%nat)
      by (rewrite length_app; simpl; lia).
    rewrite (proj2 (Nat.ltb_lt _ _) Hlt).
    rewrite (iterate_fuel _ (accepts_local unicode_isalnum total r)
               _ (S (List.length rest))); [exact IH2|exact Hlt|lia].
  - rewrite <- app_assoc. apply IH1.
    specialize (IH2 s' k Hk). cbn [Re.accepts] in IH2. exact IH2.
  - rewrite Hk. destruct (accepts total r s' k); reflexivity.
  - rewrite (IH s' k Hk). reflexivity.
Qed.

(** Matching a whole string is membership in what the pattern denotes. *)
Lemma fullmatches_denotes r s :
  anchor_free r = true ->
  Re.fullmatches unicode_isalnum r s = true <-> denotes' r s.
Proof.
  intros Haf. unfold Re.fullmatches. split.
  - intros H. apply (accepts_sound _ _ Haf) in H.
    destruct H as (p & s' & -> & Hp & Hk).
    destruct s'; [|discriminate]. rewrite app_nil_r. exact Hp.
  - intros H. rewrite <- (app_nil_r s) at 2.
    apply accepts_complete; [exact H | reflexivity].
Qed.

Lemma denotes_min_length r p : denotes' r p -> (min_length r <= List.length p)%nat.
Proof.
  induction 1; cbn [min_length List.length]; rewrite ?length_app; try lia.
Qed.

End Denotation.

(** ** What the address pattern denotes *)

Lemma local_part_anchor_free : anchor_free local_part_re = true.
Proof. vm_compute. reflexivity. Qed.

Lemma domain_anchor_free : anchor_free domain_re = true.
Proof. vm_compute. reflexivity. Qed.

Lemma local_part_min_length : min_length local_part_re = 1.
Proof. vm_compute. reflexivity. Qed.

Lemma domain_min_length : min_length domain_re = 1.
Proof. vm_compute. reflexivity. Qed.

Section AddressFacts.

Variable unicode_isalnum : N -> bool.

(** An [ADDR_SPEC] is a local part, an [@], a domain. *)
Lemma denotes_bare lp dom p :
  denotes unicode_isalnum (bare_pattern lp dom) p
  <-> exists l d,
        p = l ++ AT :: d
        /\ denotes unicode_isalnum lp l
        /\ denotes unicode_isalnum dom d.
Proof.
  unfold bare_pattern. split.
  - intros H. inversion H as [| | | |r1 r2 l q Hl Hq| | | | | | |]; subst.
    inversion Hq as [| | | |r1 r2 a d Ha Hd| | | | | | |]; subst.
    inversion Ha; subst.
    exists l, d. repeat split; assumption.
  - intros (l & d & -> & Hl & Hd).
    apply denotes_cat; [exact Hl|].
    apply (denotes_cat _ _ _ [AT] d); [constructor | exact Hd].
Qed.

(** The anchored pattern accepts what [ADDR_SPEC] denotes, and that followed
    by one line feed. *)
Lemma valid_denotes s :
  syntactically_valid unicode_isalnum s = true
  <-> exists p,
        denotes unicode_isalnum addr_spec_re p /\ (s = p \/ s = p ++ [LF]).
Proof.
  assert (Haf : anchor_free addr_spec_re = true).
  { unfold addr_spec_re, bare_pattern. cbn [anchor_free].
    rewrite local_part_anchor_free, domain_anchor_free. reflexivity. }
  rewrite syntactically_valid_unfold. split.
  - intros H. apply (accepts_sound _ _ _ Haf) in H.
    destruct H as (p & s' & -> & Hp & Hk). exists p. split; [exact Hp|].
    destruct s' as [|x [|y s']]; try discriminate Hk.
    + left. apply app_nil_r.
    + right. cbn in Hk. apply N.eqb_eq in Hk. subst x. reflexivity.
  - intros (p & Hp & [->| ->]).
    + rewrite <- (app_nil_r p) at 2. apply accepts_complete; [exact Hp | reflexivity].
    + apply accepts_complete; [exact Hp | reflexivity].
Qed.

Lemma addr_spec_denotes s :
  is_addr_spec unicode_isalnum s = true <-> denotes unicode_isalnum addr_spec_re s.
Proof.
  apply fullmatches_denotes.
  unfold addr_spec_re, bare_pattern. cbn [anchor_free].
  rewrite local_part_anchor_free, domain_anchor_free. reflexivity.
Qed.

End AddressFacts.

(** On ASCII characters the sets of the pattern do not depend on the table
    of Unicode alphanumerics. *)
Lemma in_class_ascii u1 u2 x items :
  (x < 128)%N -> Re.in_class u1 x items = Re.in_class u2 x items.
Proof.
  intros Hx. unfold Re.in_class. induction items as [|it items IH]; [reflexivity|].
  cbn [existsb]. rewrite IH. f_equal.
  destruct it; try reflexivity. cbn [Re.in_item]. unfold Re.is_word.
  apply N.ltb_lt in Hx. rewrite Hx. reflexivity.
Qed.

Lemma denotes_ascii u1 u2 r p :
  denotes u1 r p -> all_ascii p -> denotes u2 r p.
Proof.
  assert (Hl : forall a b : pystr, all_ascii (a ++ b) -> all_ascii a)
    by (intros a b H c Hc; apply H, in_or_app; left; exact Hc).
  assert (Hr : forall a b : pystr, all_ascii (a ++ b) -> all_ascii b)
    by (intros a b H c Hc; apply H, in_or_app; right; exact Hc).
  induction 1; intros Hp; try (constructor; eauto; fail).
  constructor. rewrite <- H. symmetry. apply in_class_ascii.
  apply Hp. left. reflexivity.
Qed.

(** ** Properties of the syntactic check *)

(** The accepted strings, split at the [@] between local part and domain. *)
Lemma valid_local_at_domain :
  forall (unicode_isalnum : N -> bool) (s : pystr),
    syntactically_valid unicode_isalnum s = true
    <-> exists local_part domain,
          (s = local_part ++ AT :: domain \/ s = local_part ++ AT :: domain ++ [LF])
          /\ Re.fullmatches unicode_isalnum local_part_re local_part = true
          /\ Re.fullmatches unicode_isalnum domain_re domain = true
          /\ local_part <> []
          /\ domain <> [].
Proof.
  intros uni s. rewrite valid_denotes. split.
  - intros (p & Hp & Hs). apply denotes_bare in Hp.
    destruct Hp as (l & d & -> & Hl & Hd). exists l, d.
    split.
    { destruct Hs as [->| ->]; [left; reflexivity|].
      right. rewrite <- app_assoc. reflexivity. }
    split; [apply fullmatches_denotes; [apply local_part_anchor_free | exact Hl]|].
    split; [apply fullmatches_denotes; [apply domain_anchor_free | exact Hd]|].
    apply denotes_min_length in Hl, Hd.
    rewrite local_part_min_length in Hl. rewrite domain_min_length in Hd.
    split; intros ->; cbn in *; lia.
  - intros (l & d & Hs & Hl & Hd & _ & _).
    apply fullmatches_denotes in Hl; [|apply local_part_anchor_free].
    apply fullmatches_denotes in Hd; [|apply domain_anchor_free].
    exists (l ++ AT :: d). split.
    + apply denotes_bare. exists l, d. repeat split; assumption.
    + destruct Hs as [->| ->]; [left; reflexivity|].
      right. rewrite <- app_assoc. reflexivity.
Qed.

(** X11.  The pattern accepts exactly the strings made of a local part, an
    [@] and a domain -- each matching its own fragment, [LOCAL_PART] and
    [DOMAIN], from end to end, and neither empty -- possibly followed by one
    line feed. *)
Theorem X11_address_is_local_at_domain :
  forall (unicode_isalnum : N -> bool) (s : pystr),
    syntactically_valid unicode_isalnum s = true
    <-> exists local_part domain,
          (s = local_part ++ AT :: domain \/ s = local_part ++ AT :: domain ++ [LF])
          /\ Re.fullmatches unicode_isalnum local_part_re local_part = true
          /\ Re.fullmatches unicode_isalnum domain_re domain = true
          /\ local_part <> []
          /\ domain <> [].
Proof. exact valid_local_at_domain. Qed.

(** X12.  With no check asked for, the answer is [True] exactly for the
    strings that are an [ADDR_SPEC] from end to end, and for those followed
    by one line feed: the [$] of the pattern lets a final line feed through,
    and nothing else. *)
Theorem X12_anchored_up_to_a_final_line_feed :
  forall (W : Type) (unicode_isalnum : N -> bool)
         (DNS : option (DNS_module W)) (smtplib : SMTP_library W)
         (s : pystr) (w : W),
    validate_email W unicode_isalnum DNS smtplib s false false w = (w, [], Returns true)
    <-> (is_addr_spec unicode_isalnum s = true
         \/ exists a, s = a ++ [LF] /\ is_addr_spec unicode_isalnum a = true).
Proof.
  intros W uni DNS smtplib s w.
  assert (Hv : validate_email W uni DNS smtplib s false false w = (w, [], Returns true)
               <-> syntactically_valid uni s = true).
  { destruct (syntactically_valid uni s) eqn:Hs.
    - rewrite validate_syntax_only by exact Hs. split; reflexivity.
    - rewrite validate_invalid by exact Hs. split; intros H; [inversion H | discriminate H]. }
  rewrite Hv, valid_denotes. split.
  - intros (p & Hp & [->| ->]).
    + left. apply addr_spec_denotes, Hp.
    + right. exists p. split; [reflexivity | apply addr_spec_denotes, Hp].
  - intros [H|(a & -> & H)]; apply addr_spec_denotes in H.
    + exists s. split; [exact H | left; reflexivity].
    + exists a. split; [exact H | right; reflexivity].
Qed.

(** X13.  For a string of ASCII characters the answer does not depend on
    which characters outside ASCII count as alphanumeric: the run is the
    same for any two tables. *)
Theorem X13_ascii_needs_no_unicode_table :
  forall (W : Type) (u1 u2 : N -> bool)
         (DNS : option (DNS_module W)) (smtplib : SMTP_library W)
         (s : pystr) (check_mx verify : bool) (w : W),
    all_ascii s ->
    validate_email W u1 DNS smtplib s check_mx verify w
    = validate_email W u2 DNS smtplib s check_mx verify w.
Proof.
  intros W u1 u2 DNS smtplib s check_mx verify w Hs.
  assert (Hone : forall u u', syntactically_valid u s = true ->
                              syntactically_valid u' s = true).
  { intros u u' H. apply valid_denotes in H. apply valid_denotes.
    destruct H as (p & Hp & Hsp). exists p. split; [|exact Hsp].
    apply (denotes_ascii u u' _ _ Hp).
    intros c Hc. apply Hs. destruct Hsp as [->| ->]; [exact Hc|].
    apply in_or_app. left. exact Hc. }
  assert (Heq : syntactically_valid u1 s = syntactically_valid u2 s).
  { destruct (syntactically_valid u1 s) eqn:H1, (syntactically_valid u2 s) eqn:H2;
      try reflexivity.
    - rewrite (Hone u1 u2 H1) in H2. discriminate H2.
    - rewrite (Hone u2 u1 H2) in H1. discriminate H1. }
  unfold validate_email, try_except, bind.
  rewrite !re_match_valid, Heq. reflexivity.
Qed.

Lemma X13_witness :
  validate_email unit ascii_only (Some (static_dns two_hosts))
    (static_smtp (fun _ => accepting)) user_at_example true true tt
  = validate_email unit (fun _ => true) (Some (static_dns two_hosts))
      (static_smtp (fun _ => accepting)) user_at_example true true tt.
Proof.
  apply (X13_ascii_needs_no_unicode_table unit ascii_only (fun _ => true)
           (Some (static_dns two_hosts)) (static_smtp (fun _ => accepting))
           user_at_example true true tt).
  intros c Hc. vm_compute in Hc.
  repeat (destruct Hc as [<-|Hc]; [reflexivity|]). destruct Hc.
Defined.

(** ** How an address can start *)

Lemma denotes_nullable u r : denotes u r [] -> nullable r = true.
Proof.
  intros H. remember (@nil N) as p eqn:Hp.
  induction H; cbn [nullable]; try reflexivity; try discriminate Hp.
  - apply app_eq_nil in Hp. destruct Hp as [-> ->].
    rewrite IHdenotes1, IHdenotes2; reflexivity.
  - rewrite (IHdenotes Hp). reflexivity.
  - rewrite (IHdenotes Hp). destruct (nullable r1); reflexivity.
  - apply app_eq_nil in Hp. destruct Hp as [-> _]. apply IHdenotes1. reflexivity.
Qed.

Lemma denotes_can_start u r c p : denotes u r (c :: p) -> can_start u c r = true.
Proof.
  intros H. remember (c :: p) as q eqn:Hq. revert c p Hq.
  induction H as [|x|x Hx|items x Hx|r1 r2 p1 p2 H1 IH1 H2 IH2|r1 r2 q H IH|r1 r2 q H IH
                 |r|r p1 p2 H1 IH1 H2 IH2|r p1 p2 H1 IH1 H2 IH2|r|r q H IH];
    intros c p Hq; cbn [can_start]; try discriminate Hq.
  - inversion Hq; subst. apply N.eqb_refl.
  - inversion Hq; subst. destruct (N.eqb_spec c LF); [contradiction | reflexivity].
  - inversion Hq; subst. exact Hx.
  - destruct p1 as [|y p1].
    + rewrite (denotes_nullable _ _ H1). cbn [app] in Hq.
      rewrite (IH2 _ _ Hq). destruct (can_start u c r1); reflexivity.
    + cbn [app] in Hq. inversion Hq; subst. rewrite (IH1 _ _ eq_refl). reflexivity.
  - rewrite (IH _ _ Hq). reflexivity.
  - rewrite (IH _ _ Hq). destruct (can_start u c r1); reflexivity.
  - destruct p1 as [|y p1].
    + cbn [app] in Hq. apply (IH2 _ _ Hq).
    + cbn [app] in Hq. inversion Hq; subst. apply (IH1 _ _ eq_refl).
  - destruct p1 as [|y p1].
    + cbn [app] in Hq. apply (IH2 _ _ Hq).
    + cbn [app] in Hq. inversion Hq; subst. apply (IH1 _ _ eq_refl).
  - apply (IH _ _ Hq).
Qed.

(** X14.  No accepted address starts with a dot, an [@], a closing
    parenthesis, a comma, a colon, a semicolon, an angle bracket, a square
    bracket or a backslash. *)
Theorem X14_characters_no_address_starts_with :
  forall (unicode_isalnum : N -> bool) (c : N) (s : pystr),
    In c (py ".@),:;<>[]\") ->
    syntactically_valid unicode_isalnum (c :: s) = false.
Proof.
  intros uni c s Hc.
  destruct (syntactically_valid uni (c :: s)) eqn:Hv; [exfalso|reflexivity].
  apply valid_local_at_domain in Hv.
  destruct Hv as (l & d & Hs & Hl & _ & Hne & _).
  destruct l as [|x l]; [apply Hne; reflexivity|].
  assert (x = c) by (destruct Hs as [Hs|Hs]; cbn [app] in Hs; inversion Hs; reflexivity).
  subst x.
  apply fullmatches_denotes in Hl; [|apply local_part_anchor_free].
  apply denotes_can_start in Hl.
  cbn [py list_ascii_of_string map In] in Hc.
  repeat (destruct Hc as [<-|Hc]; [vm_compute in Hl; discriminate Hl|]).
  destruct Hc.
Qed.

Lemma X14_witness :
  syntactically_valid ascii_only (N_of_ascii "." :: py "user@example.com") = false.
Proof.
  apply (X14_characters_no_address_starts_with ascii_only (N_of_ascii ".")
           (py "user@example.com")).
  left. reflexivity.
Defined.
